(** * Knowledge Base API (kb_api.py) and calculator tool (tools/calculator/main.py)

    A shallow embedding of the document indexing and retrieval service and
    of the calculator's AST evaluator.

    Python strings are sequences of Unicode code points: they are modelled
    as [list Z], so that [len] is [length].  Python floats are modelled as
    exact rationals [Q]. *)

From Stdlib Require Import ZArith QArith Qminmax String Ascii List Bool Lia Lqa.
From stdpp Require Import base gmap list.

Import ListNotations.
Open Scope Z_scope.

(* ------------------------------------------------------------------ *)
(** ** Python strings *)

Abbreviation pystr := (list Z).

(** An ASCII literal as a list of code points. *)
Fixpoint s2p (s : string) : list Z :=
  match s with
  | EmptyString => []
  | String c s' => Z.of_nat (nat_of_ascii c) :: s2p s'
  end.

Definition is_nil {A} (l : list A) : bool :=
  match l with [] => true | _ => false end.

Definition is_some {A} (o : option A) : bool :=
  match o with Some _ => true | None => false end.

Definition len (s : list Z) : Z := Z.of_nat (length s).

(** [str.isspace] for one code point: the complete list of code points
    that CPython classifies as whitespace. *)
Definition py_isspace (c : Z) : bool :=
  ((9 <=? c) && (c <=? 13)) || ((28 <=? c) && (c <=? 32))
  || (c =? 133) || (c =? 160) || (c =? 5760)
  || ((8192 <=? c) && (c <=? 8202))
  || (c =? 8232) || (c =? 8233) || (c =? 8239) || (c =? 8287)
  || (c =? 12288).

Fixpoint lstrip (s : list Z) : list Z :=
  match s with
  | [] => []
  | c :: s' => if py_isspace c then lstrip s' else s
  end.

(** [str.strip()] *)
Definition strip (s : list Z) : list Z := rev (lstrip (rev (lstrip s))).

(** [sep.join(docs)] *)
Definition join_with (sep : list Z) (docs : list (list Z)) : list Z :=
  match docs with
  | [] => []
  | d :: ds => d ++ concat (map (fun x => sep ++ x) ds)
  end.

(* ------------------------------------------------------------------ *)
(** ** The chunker: langchain's RecursiveCharacterTextSplitter

    kb_api.py:47 configures
    [RecursiveCharacterTextSplitter(chunk_size=1000, chunk_overlap=200,
    length_function=len)]; the other settings keep the library defaults:
    separators ['\n\n', '\n', ' ', ''], keep_separator=True (the separator
    starts the following piece), strip_whitespace=True,
    is_separator_regex=False.  This module translates the library's
    [split_text], [_split_text], [_split_text_with_regex],
    [_merge_splits] and [_join_docs]. *)

Module TextSplitter.

Definition chunk_size : Z := 1000.
Definition chunk_overlap : Z := 200.

Definition separators : list (list Z) := [[10; 10]; [10]; [32]; []].

Fixpoint is_prefix (p s : list Z) : bool :=
  match p, s with
  | [], _ => true
  | x :: p', y :: s' => (x =? y) && is_prefix p' s'
  | _ :: _, [] => false
  end.

(** Leftmost occurrence of [sep] in [t] ([re.search]): the text before
    it and the text after it. *)
Fixpoint break_at (sep t : list Z) : option (list Z * list Z) :=
  if is_prefix sep t then Some ([], skipn (length sep) t)
  else match t with
       | [] => None
       | c :: t' =>
           match break_at sep t' with
           | Some (b, a) => Some (c :: b, a)
           | None => None
           end
       end.

(** The pieces between the non-overlapping occurrences of [sep]; [fuel]
    is [1 + len(t)], one more than the number of occurrences. *)
Fixpoint split_on (fuel : nat) (sep t : list Z) : list (list Z) :=
  match fuel with
  | O => [t]
  | S f =>
      match break_at sep t with
      | None => [t]
      | Some (b, a) => b :: split_on f sep a
      end
  end.

(** [_split_text_with_regex(text, re.escape(sep), keep_separator=True)]:
    [re.split("(sep)", text)] gives [p0, sep, p1, sep, ...]; the result
    is [p0, sep+p1, sep+p2, ...] without the empty strings; an empty
    separator gives [list(text)]. *)
Definition split_text_with_regex (text sep : list Z) : list (list Z) :=
  let splits :=
    match sep with
    | [] => map (fun c => [c]) text
    | _ :: _ =>
        match split_on (S (length text)) sep text with
        | [] => []
        | p0 :: ps => p0 :: map (fun p => sep ++ p) ps
        end
    end in
  List.filter (fun s => negb (is_nil s)) splits.

(** [_join_docs(docs, separator)] with strip_whitespace=True. *)
Definition join_docs (docs : list (list Z)) (sep : list Z) : option (list Z) :=
  let text := strip (join_with sep docs) in
  if is_nil text then None else Some text.

Definition option_list {A} (o : option A) : list A :=
  match o with Some x => [x] | None => [] end.

(** The [while] loop of [_merge_splits] dropping the oldest pieces of
    [current_doc].  On an empty [current_doc] the source would index
    [current_doc[0]]; the loop never gets there, since [total] is the
    length of [current_doc]. *)
Fixpoint merge_shrink (sep_len : Z) (cur : list (list Z)) (total len_ : Z)
  : list (list Z) * Z :=
  match cur with
  | [] => ([], total)
  | c :: cs =>
      if (total >? chunk_overlap)
         || ((total + len_ + sep_len >? chunk_size) && (total >? 0))
      then merge_shrink sep_len cs
             (total - (len c + (if (1 <? Z.of_nat (length cur)) then sep_len else 0)))
             len_
      else (cur, total)
  end.

(** The [for d in splits] loop of [_merge_splits]. *)
Fixpoint merge_loop (sep : list Z) (ds docs cur : list (list Z)) (total : Z)
  : list (list Z) :=
  match ds with
  | [] => docs ++ option_list (join_docs cur sep)
  | d :: ds' =>
      let len_ := len d in
      let '(docs', cur', total') :=
        if total + len_ + (if is_nil cur then 0 else len sep) >? chunk_size
        then if is_nil cur then (docs, cur, total)
             else let docs' := docs ++ option_list (join_docs cur sep) in
                  let '(cur2, total2) := merge_shrink (len sep) cur total len_ in
                  (docs', cur2, total2)
        else (docs, cur, total) in
      let cur'' := cur' ++ [d] in
      merge_loop sep ds' docs' cur''
        (total' + len_ + (if (1 <? Z.of_nat (length cur'')) then len sep else 0))
  end.

(** [_merge_splits(splits, separator)] *)
Definition merge_splits (splits : list (list Z)) (sep : list Z) : list (list Z) :=
  merge_loop sep splits [] [] 0.

(** The [for s in splits] loop of [_split_text]: [recur] is the
    recursive call on [new_separators], [None] when they are empty.
    With keep_separator=True the pieces are merged with ['']. *)
Fixpoint split_loop (recur : option (list Z -> list (list Z)))
    (ss final good : list (list Z)) : list (list Z) :=
  match ss with
  | [] => final ++ (if is_nil good then [] else merge_splits good [])
  | s :: ss' =>
      if len s <? chunk_size then split_loop recur ss' final (good ++ [s])
      else
        let final' := final ++ (if is_nil good then [] else merge_splits good []) in
        let final'' := final' ++ (match recur with
                                  | None => [s]
                                  | Some f => f s
                                  end) in
        split_loop recur ss' final'' []
  end.

(** [_split_text(text, separators)]: the first separator that is ['']
    or occurs in the text is used (the last one when none occurs), and
    too long pieces are split again with the separators after it. *)
Fixpoint split_text_rec (seps : list (list Z)) (text : list Z) : list (list Z) :=
  match seps with
  | [] => [text]
  | s :: rest =>
      if is_nil s then split_loop None (split_text_with_regex text s) [] []
      else if is_some (break_at s text) then
        split_loop (if is_nil rest then None else Some (split_text_rec rest))
          (split_text_with_regex text s) [] []
      else if is_nil rest then split_loop None (split_text_with_regex text s) [] []
      else split_text_rec rest text
  end.

(** [text_splitter.split_text(text)] *)
Definition split_text (text : list Z) : list (list Z) :=
  split_text_rec separators text.

(** [text_splitter.split_documents(documents)]: the page texts of the
    loaded documents, chunked one after the other. *)
Definition split_documents (pages : list (list Z)) : list (list Z) :=
  flat_map split_text pages.

(** Modelled from the spec: the reassembly of §8 ("removing the
    overlapping prefix of each chunk after the first"), with O = 200. *)
Definition reassemble (chunks : list (list Z)) : list Z :=
  match chunks with
  | [] => []
  | c :: cs => c ++ concat (map (skipn (Z.to_nat chunk_overlap)) cs)
  end.

End TextSplitter.


(* ------------------------------------------------------------------ *)
(** ** kb_api.py: data *)

(** Metadata of a stored chunk (the [chunk.metadata.update] of
    upload_document); chunks written by other means may lack a field. *)
Record chunk := {
  ch_text : pystr;
  ch_source_file : option pystr;
  ch_collection : option pystr;
  ch_uploaded_at : option pystr;
}.

(** The persist directory of a collection: its files and the chunks the
    Chroma store in it holds. *)
Record coll_dir := {
  cd_files : list pystr;
  cd_chunks : list chunk;
}.

(** What [kb_storage/<name>] is on disk. *)
Inductive node :=
  | NDir (d : coll_dir)
  | NFile.

(** The file system: the entries of [CHROMA_BASE_DIR] by name, and the
    scratch files of [tempfile] that exist.  The handlers look a
    collection name up among these entries; [delete_collection] also
    follows ['.'] and ['..'] to the root itself. *)
Record state := {
  st_fs : gmap (list Z) node;
  st_scratch : list pystr;
}.

(** Exceptions raised by the handlers; [HTTPException] carries the status
    code and the detail message. *)
Inductive exn :=
  | HTTPException (status_code : Z) (detail : detail)
  | UnboundLocalError
  | TempFileError
  | LoaderError
  | StorageError
with detail :=
  | DUnsupportedType (ext : pystr)
  | DInvalidName
  | DNoText
  | DNotFound (name : pystr)
  | DProcessing (e : exn)
  | DQuerying (e : exn)
  | DDeleting (e : exn)
  | DStats (e : exn).

Inductive outcome (A : Type) :=
  | Ret (a : A)
  | Raise (e : exn).
Arguments Ret {A} a.
Arguments Raise {A} e.

(** A user-input error: a 4xx response. *)
Definition is_user_error (e : exn) : bool :=
  match e with
  | HTTPException s _ => (400 <=? s) && (s <? 500)
  | _ => false
  end.

(** File system and store accesses, in the order they happen. *)
Inductive access :=
  | TmpCreate (p : pystr)
  | TmpWrite (p : pystr)
  | LoadFile (p : pystr)
  | PathExists (p : pystr)
  | StoreOpen (name : pystr)
  | StoreWrite (name : pystr)
  | StoreCreate (name : pystr)
  | Unlink (p : pystr)
  | RmTree (name : pystr).

Definition CHROMA_DB_FILE : pystr := s2p "chroma.sqlite3".

Definition SUPPORTED_EXTENSIONS : list pystr :=
  [s2p ".pdf"; s2p ".txt"; s2p ".md"; s2p ".docx"].

(** [ext in SUPPORTED_EXTENSIONS] *)
Definition is_supported (ext : pystr) : bool :=
  existsb (fun e => bool_decide (e = ext)) SUPPORTED_EXTENSIONS.

(** Index of the last occurrence of [c] ([str.rfind]), -1 when absent. *)
Fixpoint rfind_aux (c : Z) (s : list Z) (i acc : Z) : Z :=
  match s with
  | [] => acc
  | x :: s' => rfind_aux c s' (i + 1) (if x =? c then i else acc)
  end.

Definition rfind (s : list Z) (c : Z) : Z := rfind_aux c s 0 (-1).

(** [os.path.splitext(p)[1]] (posixpath): the text from the last dot on,
    when that dot is after the last slash and some character other than
    a dot precedes it in the last component; [''] otherwise. *)
Definition splitext_ext (p : list Z) : list Z :=
  let sepIndex := rfind p 47 in
  let dotIndex := rfind p 46 in
  if sepIndex <? dotIndex then
    let between := firstn (Z.to_nat (dotIndex - (sepIndex + 1)))
                          (skipn (Z.to_nat (sepIndex + 1)) p) in
    if existsb (fun c => negb (c =? 46)) between
    then skipn (Z.to_nat dotIndex) p
    else []
  else [].

Definition is_ascii_alnum (c : Z) : bool :=
  ((48 <=? c) && (c <=? 57)) || ((65 <=? c) && (c <=? 90))
  || ((97 <=? c) && (c <=? 122)).

(** [c in "[A-Za-z0-9_-]"] *)
Definition in_name_charset (c : Z) : bool :=
  is_ascii_alnum c || (c =? 95) || (c =? 45).


(** [s.replace(ch, '')] *)
Definition py_remove_char (ch : Z) (s : list Z) : list Z :=
  List.filter (fun c => negb (c =? ch)) s.

Section Unicode.

(** The Unicode database for code points beyond ASCII: [str.isalnum] and
    [str.lower] of one character. *)
Variable uni_isalnum : Z -> bool.
Variable uni_lower : Z -> list Z.

Definition isalnum_char (c : Z) : bool :=
  if c <? 128 then is_ascii_alnum c else uni_isalnum c.

(** [str.isalnum()]: non-empty and every character alphanumeric. *)
Definition py_isalnum (s : list Z) : bool :=
  negb (is_nil s) && forallb isalnum_char s.

(** [str.lower()] *)
Definition py_lower (s : list Z) : list Z :=
  flat_map (fun c => if (65 <=? c) && (c <=? 90) then [c + 32]
                     else if c <? 128 then [c] else uni_lower c) s.

(** kb_api.py:189 [collection.replace('_', '').replace('-', '').isalnum()] *)
Definition collection_name_ok (collection : list Z) : bool :=
  py_isalnum (py_remove_char 45 (py_remove_char 95 collection)).

End Unicode.

(** Exact Unicode tables for the Latin-1 range (code points below 256),
    used to run the model on concrete inputs; above U+00FF they answer
    "not alphanumeric" and "no case". *)
Definition latin1_isalnum (c : Z) : bool :=
  (c =? 170) || (c =? 178) || (c =? 179) || (c =? 181) || (c =? 185)
  || (c =? 186) || ((188 <=? c) && (c <=? 190))
  || ((192 <=? c) && (c <=? 255) && negb (c =? 215) && negb (c =? 247)).

Definition latin1_lower (c : Z) : list Z :=
  if (192 <=? c) && (c <=? 222) && negb (c =? 215) then [c + 32] else [c].

(* ------------------------------------------------------------------ *)
(** ** kb_api.py: operations *)

Abbreviation fsmap := (gmap (list Z) node).

Definition mk_chunk (filename collection now text : pystr) : chunk :=
  {| ch_text := text; ch_source_file := Some filename;
     ch_collection := Some collection; ch_uploaded_at := Some now |}.

(** kb_api.py:224-242: open the existing store and [add_documents], or
    [Chroma.from_documents] into a new persist directory.
    [chroma_opens name] tells whether [Chroma(collection_name=name,
    persist_directory=kb_storage/name)] gets its collection: Chroma's own
    collection-name check accepts [name] (it is stricter than kb_api's,
    see [chroma_name_valid]) and the store on disk can be read; it is
    taken as given, the same for every call.  Opening a path that is not
    a directory raises, and so does opening a store [chroma_opens]
    refuses.  [from_documents] starts the client, which creates the
    persist directory and its [chroma.sqlite3], before it makes the
    collection, so a refused new name leaves an empty store directory. *)
Definition create_or_append (chroma_opens : pystr -> bool) (collection : pystr)
    (chunks : list chunk) (fs : fsmap) : outcome unit * fsmap :=
  match fs !! collection with
  | Some (NDir d) =>
      if chroma_opens collection
      then (Ret tt, <[collection := NDir {| cd_files := cd_files d;
                                            cd_chunks := cd_chunks d ++ chunks |}]> fs)
      else (Raise StorageError, fs)
  | Some NFile => (Raise StorageError, fs)
  | None =>
      if chroma_opens collection
      then (Ret tt, <[collection := NDir {| cd_files := [CHROMA_DB_FILE];
                                            cd_chunks := chunks |}]> fs)
      else (Raise StorageError, <[collection := NDir {| cd_files := [CHROMA_DB_FILE];
                                                        cd_chunks := [] |}]> fs)
  end.

(** What the collaborators of one upload do: the scratch file name and
    whether [NamedTemporaryFile] and [copyfileobj] succeed, the page texts
    [loader.load()] returns ([None]: it raises), whether embedding and
    the store write succeed, and [datetime.now().isoformat()]. *)
Record upload_env := {
  ue_tmp_ok : bool;
  ue_tmp_name : pystr;
  ue_copy_ok : bool;
  ue_pages : option (list pystr);
  ue_store_ok : bool;
  ue_now : pystr;
}.

Record upload_response := {
  ur_status : pystr;
  ur_collection : pystr;
  ur_chunks_added : Z;
  ur_filename : pystr;
}.

(** The statements of the [try] block after the upload is copied (lines
    203-250).  When embedding or writing the chunks fails
    ([ue_store_ok] false), the store has been opened or created first
    (the Chroma constructor runs before [add_texts]): a new persist
    directory stays, holding no chunk. *)
Definition upload_body (chroma_opens : pystr -> bool) (filename collection : pystr)
    (env : upload_env) (fs : fsmap)
  : outcome upload_response * fsmap * list access :=
  let tmp := ue_tmp_name env in
  match ue_pages env with
  | None => (Raise LoaderError, fs, [LoadFile tmp])
  | Some pages =>
      let texts := TextSplitter.split_documents pages in
      if is_nil texts then (Raise (HTTPException 400 DNoText), fs, [LoadFile tmp])
      else
        let chunks := map (mk_chunk filename collection (ue_now env)) texts in
        let acc := [LoadFile tmp; PathExists collection;
                    match fs !! collection with
                    | Some _ => StoreWrite collection
                    | None => StoreCreate collection
                    end] in
        if negb (ue_store_ok env)
        then (Raise StorageError, snd (create_or_append chroma_opens collection [] fs), acc)
        else
          let '(r, fs') := create_or_append chroma_opens collection chunks fs in
          match r with
          | Ret _ =>
              (Ret {| ur_status := s2p "success"; ur_collection := collection;
                      ur_chunks_added := Z.of_nat (length chunks);
                      ur_filename := filename |}, fs', acc)
          | Raise e => (Raise e, fs', acc)
          end
  end.

Section Upload.

Variable uni_isalnum : Z -> bool.
Variable uni_lower : Z -> list Z.

(** kb_api.py:166 [upload_document]. *)
Definition upload_document (chroma_opens : pystr -> bool) (filename collection : pystr)
    (env : upload_env) (st : state)
  : outcome upload_response * state * list access :=
  let file_ext := py_lower uni_lower (splitext_ext filename) in
  if negb (is_supported file_ext) then
    (Raise (HTTPException 400 (DUnsupportedType file_ext)), st, [])
  else if negb (collection_name_ok uni_isalnum collection) then
    (Raise (HTTPException 400 DInvalidName), st, [])
  else
    let tmp := ue_tmp_name env in
    if negb (ue_tmp_ok env) then
      (* NamedTemporaryFile raised: temp_file is still None, so the
         finally clause does nothing *)
      (Raise (HTTPException 500 (DProcessing TempFileError)), st, [TmpCreate tmp])
    else
      let st1 := {| st_fs := st_fs st; st_scratch := tmp :: st_scratch st |} in
      if negb (ue_copy_ok env) then
        (* copyfileobj raised before temp_path was bound; the except
           clause raises HTTPException(500), then the finally clause
           evaluates os.path.exists(temp_path): UnboundLocalError *)
        (Raise UnboundLocalError, st1, [TmpCreate tmp; TmpWrite tmp])
      else
        let '(r, fs', acc) := upload_body chroma_opens filename collection env (st_fs st1) in
        let r' := match r with
                  | Ret a => Ret a
                  | Raise e => Raise (HTTPException 500 (DProcessing e))
                  end in
        (r', {| st_fs := fs';
                st_scratch := List.filter (fun p => negb (bool_decide (p = tmp)))
                                (st_scratch st1) |},
         [TmpCreate tmp; TmpWrite tmp] ++ acc ++ [PathExists tmp; Unlink tmp]).

End Upload.

Record stats_response := {
  sr_collection : pystr;
  sr_total_chunks : Z;
  sr_source_files : list (pystr * Z);
  sr_file_count : Z;
}.

(** [source_files[source] = source_files.get(source, 0) + 1] *)
Fixpoint tally (acc : list (pystr * Z)) (src : pystr) : list (pystr * Z) :=
  match acc with
  | [] => [(src, 1)]
  | (k, v) :: r => if bool_decide (k = src) then (k, v + 1) :: r else (k, v) :: tally r src
  end.

Definition source_histogram (cs : list chunk) : list (pystr * Z) :=
  fold_left (fun acc c => tally acc (default (s2p "unknown") (ch_source_file c))) cs [].

(** kb_api.py:359 [get_collection_stats]; [chroma_opens] as in
    [create_or_append]. *)
Definition get_collection_stats (chroma_opens : pystr -> bool) (collection_name : pystr)
    (fs : fsmap) : outcome stats_response :=
  match fs !! collection_name with
  | None => Raise (HTTPException 404 (DNotFound collection_name))
  | Some NFile => Raise (HTTPException 500 (DStats StorageError))
  | Some (NDir d) =>
      if negb (chroma_opens collection_name)
      then Raise (HTTPException 500 (DStats StorageError)) else
      let h := source_histogram (cd_chunks d) in
      Ret {| sr_collection := collection_name;
             sr_total_chunks := Z.of_nat (length (cd_chunks d));
             sr_source_files := h;
             sr_file_count := Z.of_nat (length h) |}
  end.

Record query_request := {
  qr_query : pystr;
  qr_collection : pystr;
  qr_top_k : Z;
}.

Record result_doc := {
  rd_content : pystr;
  rd_metadata : chunk;
  rd_distance : Q;
  rd_score : Q;
}.

Record query_response := {
  qs_query : pystr;
  qs_documents : list result_doc;
  qs_count : Z;
}.

(** Python's [max(a, b)]: [b] only when it is strictly greater. *)
Definition py_max (a b : Q) : Q := if Qlt_le_dec a b then b else a.

(** kb_api.py:304 [max(0.0, 1.0 - float(score) / 3.0)] *)
Definition score_of (distance : Q) : Q := py_max 0 (1 - distance / 3).

Definition format_result (r : chunk * Q) : result_doc :=
  {| rd_content := ch_text (fst r); rd_metadata := fst r;
     rd_distance := snd r; rd_score := score_of (snd r) |}.

Section Query.

(** Chroma's [similarity_search_with_score(query, k)] over the chunks of
    one store: (chunk, distance) pairs. *)
Variable knn : list chunk -> pystr -> Z -> list (chunk * Q).

(** kb_api.py:265 [query_collection]; [chroma_opens] as in
    [create_or_append]. *)
Definition query_collection (chroma_opens : pystr -> bool) (request : query_request)
    (fs : fsmap) : outcome query_response :=
  match fs !! qr_collection request with
  | None => Raise (HTTPException 404 (DNotFound (qr_collection request)))
  | Some NFile => Raise (HTTPException 500 (DQuerying StorageError))
  | Some (NDir d) =>
      if negb (chroma_opens (qr_collection request))
      then Raise (HTTPException 500 (DQuerying StorageError)) else
      let documents := map format_result
                         (knn (cd_chunks d) (qr_query request) (qr_top_k request)) in
      Ret {| qs_query := qr_query request; qs_documents := documents;
             qs_count := Z.of_nat (length documents) |}
  end.

End Query.

Record delete_response := {
  dr_status : pystr;
  dr_collection : pystr;
}.

(** What [shutil.rmtree] meets: every removal succeeds, the removal of
    the k-th entry fails, or the final [rmdir] fails. *)
Inductive rm_outcome :=
  | RmOk
  | RmFailAt (k : nat)
  | RmFailRmdir.

(** [shutil.rmtree] on a directory with [files]: entries are removed one
    after the other; [None] when all is removed, otherwise the entries
    still there when it raises. *)
Definition rmtree (files : list pystr) (o : rm_outcome) : option (list pystr) :=
  match o with
  | RmOk => None
  | RmFailAt k => if (k <? length files)%nat then Some (skipn k files) else None
  | RmFailRmdir => Some []
  end.

(** Whether [os.path.join(CHROMA_BASE_DIR, name)] is the storage root
    itself (['.']) or its parent (['..']).  A path parameter holds no
    ['/'], so these are the only names of [delete_collection] that leave
    the entries of the root. *)
Definition is_dot_name (name : pystr) : bool :=
  bool_decide (name = s2p ".") || bool_decide (name = s2p "..").

(** [shutil.rmtree] on the storage root, entry after entry in the order
    the directory lists them (here the map's order), a directory file by
    file and then its [rmdir]: with [RmFailAt k] the k-th removal fails
    and the entries from there on stay, the one being removed without
    the files already gone. *)
Fixpoint rm_entries (es : list (pystr * node)) (k : nat) : list (pystr * node) :=
  match es with
  | [] => []
  | (n, NFile) :: es' => match k with O => es | S k' => rm_entries es' k' end
  | (n, NDir d) :: es' =>
      if (k <=? length (cd_files d))%nat
      then (n, NDir {| cd_files := skipn k (cd_files d); cd_chunks := cd_chunks d |}) :: es'
      else rm_entries es' (k - length (cd_files d) - 1)
  end.

(** kb_api.py:323 [delete_collection].  [rmtree] on a regular file raises
    (NotADirectoryError).  For ['.'] and ['..'] the path exists and
    [rmtree] empties the storage root (for ['..'] it removes the root
    itself along with the other entries of the working directory, which
    are outside this model); its final [rmdir] then fails, since
    [rmdir('kb_storage/.')] is invalid and ['kb_storage/..'] no longer
    resolves, so the call always fails with 500. *)
Definition delete_collection (collection_name : pystr) (o : rm_outcome) (fs : fsmap)
  : outcome delete_response * fsmap :=
  if is_dot_name collection_name then
    (Raise (HTTPException 500 (DDeleting StorageError)),
     match o with
     | RmFailAt k => list_to_map (rm_entries (map_to_list fs) k)
     | _ => ∅
     end)
  else
  match fs !! collection_name with
  | None => (Raise (HTTPException 404 (DNotFound collection_name)), fs)
  | Some NFile => (Raise (HTTPException 500 (DDeleting StorageError)), fs)
  | Some (NDir d) =>
      match rmtree (cd_files d) o with
      | None => (Ret {| dr_status := s2p "success"; dr_collection := collection_name |},
                 delete collection_name fs)
      | Some rest =>
          (Raise (HTTPException 500 (DDeleting StorageError)),
           <[collection_name := NDir {| cd_files := rest; cd_chunks := cd_chunks d |}]> fs)
      end
  end.

(* ------------------------------------------------------------------ *)
(** ** tools/calculator/main.py: [safe_eval]

    [ast.parse(expr_str, mode='eval')] is Python's parser; the model
    starts from the tree it returns and translates [eval_node].  Every
    node kind the parser produces is either a constructor below or
    [OtherNode] with its class name. *)

Module Calculator.

Inductive operator :=
  | Add | Sub | Mult | MatMult | Div | Mod | Pow
  | LShift | RShift | BitOr | BitXor | BitAnd | FloorDiv.

Inductive unaryop := Invert | Not | UAdd | USub.

Inductive cmpop := Eq | NotEq | Lt | LtE | Gt | GtE | Is | IsNot | In_ | NotIn.

Inductive boolop := And | Or.

(** The value of an [ast.Constant]. *)
Inductive constant :=
  | CInt (z : Z)
  | CFloat (q : Q)
  | CComplex (re im : Q)
  | CBool (b : bool)
  | CStr (s : pystr)
  | CBytes (b : list Z)
  | CNone
  | CEllipsis.

#[warnings="-register-all"]
Inductive expr :=
  | Constant (value : constant)
  | BinOp (left : expr) (op : operator) (right : expr)
  | UnaryOp (op : unaryop) (operand : expr)
  | Name (id : pystr)
  | Call (func : expr) (args : list expr)
  | Attribute (value : expr) (attr : pystr)
  | Subscript (value slice : expr)
  | Compare (left : expr) (ops : list cmpop) (comparators : list expr)
  | BoolOp (op : boolop) (values : list expr)
  | IfExp (test body orelse : expr)
  | Lambda (body : expr)
  | OtherNode (kind : pystr) (children : list expr).

Definition operator_name (op : operator) : pystr :=
  s2p match op with
      | Add => "Add" | Sub => "Sub" | Mult => "Mult" | MatMult => "MatMult"
      | Div => "Div" | Mod => "Mod" | Pow => "Pow" | LShift => "LShift"
      | RShift => "RShift" | BitOr => "BitOr" | BitXor => "BitXor"
      | BitAnd => "BitAnd" | FloorDiv => "FloorDiv"
      end.

Definition unaryop_name (op : unaryop) : pystr :=
  s2p match op with
      | Invert => "Invert" | Not => "Not" | UAdd => "UAdd" | USub => "USub"
      end.

(** [type(node).__name__] *)
Definition node_name (e : expr) : pystr :=
  match e with
  | Constant _ => s2p "Constant" | BinOp _ _ _ => s2p "BinOp"
  | UnaryOp _ _ => s2p "UnaryOp" | Name _ => s2p "Name" | Call _ _ => s2p "Call"
  | Attribute _ _ => s2p "Attribute" | Subscript _ _ => s2p "Subscript"
  | Compare _ _ _ => s2p "Compare" | BoolOp _ _ => s2p "BoolOp"
  | IfExp _ _ _ => s2p "IfExp" | Lambda _ => s2p "Lambda"
  | OtherNode k _ => k
  end.

Inductive value_error_msg :=
  | UnsupportedOperation (name : pystr)
  | UnsupportedExpression (name : pystr).

Inductive arith_error :=
  | ZeroDivisionError
  | OverflowError.

Inductive calc_exn :=
  | ValueError (m : value_error_msg)
  | ArithError (e : arith_error).

Inductive cres (A : Type) :=
  | COk (v : A)
  | CErr (e : calc_exn).
Arguments COk {A} v.
Arguments CErr {A} e.

(** The Python numbers and the functions of [operator] that [SAFE_OPS]
    maps to. *)
Record arith := {
  num : Type;
  of_const : constant -> num;
  op_add : num -> num -> cres num;
  op_sub : num -> num -> cres num;
  op_mul : num -> num -> cres num;
  op_truediv : num -> num -> cres num;
  op_pow : num -> num -> cres num;
  op_neg : num -> cres num;
}.

Section SafeEval.

Variable A : arith.

(** [SAFE_OPS.get(type(node.op))] for a binary operator. *)
Definition safe_binop (op : operator) : option (num A -> num A -> cres (num A)) :=
  match op with
  | Add => Some (op_add A)
  | Sub => Some (op_sub A)
  | Mult => Some (op_mul A)
  | Div => Some (op_truediv A)
  | Pow => Some (op_pow A)
  | _ => None
  end.

(** [SAFE_OPS.get(type(node.op))] for a unary operator. *)
Definition safe_unop (op : unaryop) : option (num A -> cres (num A)) :=
  match op with
  | USub => Some (op_neg A)
  | _ => None
  end.

(** [isinstance(node, ast.Num)]: a constant of type int, float or
    complex, and not a bool. *)
Definition is_num_const (c : constant) : bool :=
  match c with
  | CInt _ | CFloat _ | CComplex _ _ => true
  | _ => false
  end.

(** [eval_node]: the operands are evaluated left to right before the
    operator is applied. *)
Fixpoint eval_node (node : expr) : cres (num A) :=
  match node with
  | Constant c =>
      if is_num_const c then COk (of_const A c)
      else CErr (ValueError (UnsupportedExpression (node_name node)))
  | BinOp l op r =>
      match safe_binop op with
      | None => CErr (ValueError (UnsupportedOperation (operator_name op)))
      | Some f =>
          match eval_node l with
          | CErr x => CErr x
          | COk a =>
              match eval_node r with
              | CErr x => CErr x
              | COk b => f a b
              end
          end
      end
  | UnaryOp op o =>
      match safe_unop op with
      | None => CErr (ValueError (UnsupportedOperation (unaryop_name op)))
      | Some f =>
          match eval_node o with
          | CErr x => CErr x
          | COk a => f a
          end
      end
  | _ => CErr (ValueError (UnsupportedExpression (node_name node)))
  end.

(** [safe_eval] on the body of the parsed expression. *)
Definition safe_eval (tree : expr) : cres (num A) := eval_node tree.

End SafeEval.

(** Modelled from the spec: the expressions [safe_eval] is to evaluate,
    built from numeric literals with [+ - * / **] and unary [-]. *)
Fixpoint arith_only (e : expr) : bool :=
  match e with
  | Constant c =>
      match c with CInt _ | CFloat _ | CComplex _ _ => true | _ => false end
  | BinOp l op r =>
      match op with Add | Sub | Mult | Div | Pow => arith_only l && arith_only r | _ => false end
  | UnaryOp USub o => arith_only o
  | _ => false
  end.

(** Python numbers as exact complex rationals (an int or a float is a
    complex number with zero imaginary part; float rounding is not
    modelled), to run [safe_eval] on concrete trees. *)
Definition qc_mul (a b : Q * Q) : Q * Q :=
  (fst a * fst b - snd a * snd b, fst a * snd b + snd a * fst b)%Q.

Fixpoint qc_pow_nat (a : Q * Q) (n : nat) : Q * Q :=
  match n with O => (1%Q, 0%Q) | S n' => qc_mul a (qc_pow_nat a n') end.

Definition qc_div (a b : Q * Q) : cres (Q * Q) :=
  let d := (fst b * fst b + snd b * snd b)%Q in
  if Qeq_bool d 0 then CErr (ArithError ZeroDivisionError)
  else COk (((fst a * fst b + snd a * snd b) / d)%Q,
            ((snd a * fst b - fst a * snd b) / d)%Q).

Section QComplex.

(** [operator.pow] for an exponent that is not an integer: the C
    library's [pow], whose results (floats, or complex numbers for a
    negative base) are not given here. *)
Variable frac_pow : Q * Q -> Q * Q -> cres (Q * Q).

(** [a ** b]: exact for an integer exponent (ZeroDivisionError for zero
    to a negative power), [frac_pow] otherwise. *)
Definition qc_pow (a b : Q * Q) : cres (Q * Q) :=
  if Qeq_bool (snd b) 0 && Pos.eqb (Qden (fst b)) 1 then
    let n := Qnum (fst b) in
    if 0 <=? n then COk (qc_pow_nat a (Z.to_nat n))
    else match qc_div (1%Q, 0%Q) a with
         | CErr x => CErr x
         | COk inv => COk (qc_pow_nat inv (Z.to_nat (- n)))
         end
  else frac_pow a b.

Definition qc_of_const (c : constant) : Q * Q :=
  match c with
  | CInt z => (inject_Z z, 0%Q)
  | CFloat q => (q, 0%Q)
  | CComplex re im => (re, im)
  | _ => (0%Q, 0%Q)
  end.

Definition qcomplex : arith := {|
  num := Q * Q;
  of_const := qc_of_const;
  op_add := fun a b => COk ((fst a + fst b)%Q, (snd a + snd b)%Q);
  op_sub := fun a b => COk ((fst a - fst b)%Q, (snd a - snd b)%Q);
  op_mul := fun a b => COk (qc_mul a b);
  op_truediv := qc_div;
  op_pow := qc_pow;
  op_neg := fun a => COk ((- fst a)%Q, (- snd a)%Q);
|}.

End QComplex.

End Calculator.


(* ------------------------------------------------------------------ *)
(** ** Concrete inputs *)

(** The groups of [s] between dots ([s.split('.')]). *)
Fixpoint split_dots (s cur : list Z) : list (list Z) :=
  match s with
  | [] => [rev cur]
  | c :: s' => if c =? 46 then rev cur :: split_dots s' [] else split_dots s' (c :: cur)
  end.

(** [re.match(r"^[0-9]{1,3}\.[0-9]{1,3}\.[0-9]{1,3}\.[0-9]{1,3}$", s)] *)
Definition ipv4_like (s : list Z) : bool :=
  let gs := split_dots s [] in
  (length gs =? 4)%nat
  && forallb (fun g => negb (is_nil g) && (length g <=? 3)%nat
                       && forallb (fun c => (48 <=? c) && (c <=? 57)) g) gs.

(** [".." in s] *)
Fixpoint has_dotdot (s : list Z) : bool :=
  match s with
  | c :: ((d :: _) as s') => ((c =? 46) && (d =? 46)) || has_dotdot s'
  | _ => false
  end.

(** Chroma's collection-name check as chromadb 0.4 and 0.5 make it
    ([check_index_name]), for names of ASCII characters: 3 to 63
    characters from [[a-zA-Z0-9._-]], alphanumeric at both ends, no "..",
    and not an IPv4 address. *)
Definition chroma_name_valid (name : list Z) : bool :=
  (3 <=? len name) && (len name <=? 63)
  && is_ascii_alnum (hd 0 name) && is_ascii_alnum (List.last name 0)
  && forallb (fun c => is_ascii_alnum c || (c =? 46) || (c =? 95) || (c =? 45)) name
  && negb (has_dotdot name) && negb (ipv4_like name).

(** A store that opens exactly when Chroma accepts the name. *)
Definition demo_chroma_opens (name : pystr) : bool := chroma_name_valid name.


Definition demo_env : upload_env := {|
  ue_tmp_ok := true; ue_tmp_name := s2p "/tmp/tmpk3x9.txt"; ue_copy_ok := true;
  ue_pages := Some [s2p "hello world"]; ue_store_ok := true;
  ue_now := s2p "2026-10-18T12:00:00" |}.

Definition demo_state : state := {| st_fs := empty; st_scratch := [] |}.

Definition copy_fail_env : upload_env := {|
  ue_tmp_ok := true; ue_tmp_name := s2p "/tmp/tmpk3x9.txt"; ue_copy_ok := false;
  ue_pages := Some [s2p "hello world"]; ue_store_ok := true;
  ue_now := s2p "2026-10-18T12:00:00" |}.

Definition empty_txt_env : upload_env := {|
  ue_tmp_ok := true; ue_tmp_name := s2p "/tmp/tmpk3x9.txt"; ue_copy_ok := true;
  ue_pages := Some [[]]; ue_store_ok := true;
  ue_now := s2p "2026-10-18T12:00:00" |}.

Definition demo_chunk : chunk := mk_chunk (s2p "a.txt") (s2p "docs") (s2p "t") (s2p "hello").

(** A store search returning every stored chunk at distance 1/2. *)
Definition demo_knn (cs : list chunk) (q : pystr) (k : Z) : list (chunk * Q) :=
  map (fun c => (c, (1 # 2)%Q)) cs.

(** [kb_storage/notes] is a regular file, not a collection directory. *)
Definition notes_file_fs : fsmap := <[s2p "notes" := NFile]> empty.

Definition docs_dir : coll_dir :=
  {| cd_files := [CHROMA_DB_FILE; s2p "seg/data_level0.bin"]; cd_chunks := [demo_chunk] |}.

Definition docs_fs : fsmap := <[s2p "docs" := NDir docs_dir]> empty.

Definition demo_request : query_request :=
  {| qr_query := s2p "hello"; qr_collection := s2p "docs"; qr_top_k := 5 |}.

Definition demo_query_response : query_response :=
  {| qs_query := s2p "hello"; qs_documents := [format_result (demo_chunk, (1 # 2)%Q)];
     qs_count := 1 |}.

(** A stand-in for [pow] with an exponent that is not an integer, to run
    [qcomplex] on trees that have no such power. *)
Definition demo_frac_pow (a b : Q * Q) : Calculator.cres (Q * Q) :=
  Calculator.COk (1%Q, 0%Q).

Definition div_zero_plus_name : Calculator.expr :=
  Calculator.BinOp
    (Calculator.BinOp (Calculator.Constant (Calculator.CInt 1)) Calculator.Div
                      (Calculator.Constant (Calculator.CInt 0)))
    Calculator.Add (Calculator.Name (s2p "x")).

(* ------------------------------------------------------------------ *)
(** ** Derived notions *)

(** The chunks of a text shorter than the chunk size (see [TextSplitter.split_text]). *)
Definition short_chunks (text : list Z) : list (list Z) :=
  if is_nil (strip text) then [] else [strip text].


(** The spec's [exists(name)]: the storage path exists and is a
    directory. *)
Definition collection_exists (name : pystr) (fs : fsmap) : bool :=
  match fs !! name with Some (NDir _) => true | _ => false end.

(** The entry [list_collections] makes of one directory entry: none for
    a regular file, nor for a directory whose store does not open (the
    [except Exception] clause prints and [continue]s). *)
Definition collection_info (chroma_opens : pystr -> bool) (e : pystr * node)
  : option (pystr * Z) :=
  match e with
  | (k, NDir d) => if chroma_opens k then Some (k, Z.of_nat (length (cd_chunks d))) else None
  | (_, NFile) => None
  end.

(** kb_api.py:119 [list_collections]: the names and chunk counts of the
    directory entries of [CHROMA_BASE_DIR] (timestamps left out);
    [chroma_opens] as in [create_or_append]. *)
Definition list_collections (chroma_opens : pystr -> bool) (fs : fsmap) : list (pystr * Z) :=
  omap (collection_info chroma_opens) (map_to_list fs).

(** The number of chunks the store of [name] holds. *)
Definition chunk_total (name : pystr) (fs : fsmap) : nat :=
  match fs !! name with Some (NDir d) => length (cd_chunks d) | _ => O end.

(** Successive [createOrAppend] calls on one name. *)
Fixpoint create_or_append_all (chroma_opens : pystr -> bool) (name : pystr)
    (batches : list (list chunk)) (fs : fsmap) : fsmap :=
  match batches with
  | [] => fs
  | b :: bs => create_or_append_all chroma_opens name bs
                 (snd (create_or_append chroma_opens name b fs))
  end.

(** No arithmetic function of [SAFE_OPS] raises. *)
Definition ops_total (A : Calculator.arith) : Prop :=
  (forall a b, exists v, Calculator.op_add A a b = Calculator.COk v) /\
  (forall a b, exists v, Calculator.op_sub A a b = Calculator.COk v) /\
  (forall a b, exists v, Calculator.op_mul A a b = Calculator.COk v) /\
  (forall a b, exists v, Calculator.op_truediv A a b = Calculator.COk v) /\
  (forall a b, exists v, Calculator.op_pow A a b = Calculator.COk v) /\
  (forall a, exists v, Calculator.op_neg A a = Calculator.COk v).

Definition is_value_error {X} (r : Calculator.cres X) : bool :=
  match r with Calculator.CErr (Calculator.ValueError _) => true | _ => false end.

(** No arithmetic function of [SAFE_OPS] raises ValueError. *)
Definition ops_no_value_error (A : Calculator.arith) : Prop :=
  (forall a b, is_value_error (Calculator.op_add A a b) = false) /\
  (forall a b, is_value_error (Calculator.op_sub A a b) = false) /\
  (forall a b, is_value_error (Calculator.op_mul A a b) = false) /\
  (forall a b, is_value_error (Calculator.op_truediv A a b) = false) /\
  (forall a b, is_value_error (Calculator.op_pow A a b) = false) /\
  (forall a, is_value_error (Calculator.op_neg A a) = false).

(* ------------------------------------------------------------------ *)
(** ** kb_api.py: loaders, paths, scratch files and stats *)

(** The loader classes of kb_api.py:19-24. *)
Inductive loader :=
  | PyPDFLoader
  | TextLoader
  | UnstructuredMarkdownLoader
  | Docx2txtLoader.

(** kb_api.py:58 [SUPPORTED_EXTENSIONS]: extension to loader class. *)
Definition SUPPORTED_LOADERS : list (pystr * loader) :=
  [(s2p ".pdf", PyPDFLoader); (s2p ".txt", TextLoader);
   (s2p ".md", UnstructuredMarkdownLoader); (s2p ".docx", Docx2txtLoader)].

(** [d.get(k)] on a dict given by its items. *)
Fixpoint dict_get {V} (k : pystr) (items : list (pystr * V)) : option V :=
  match items with
  | [] => None
  | (k', v) :: r => if bool_decide (k' = k) then Some v else dict_get k r
  end.

Section Loader.

Variable uni_lower : Z -> list Z.

(** kb_api.py:99 [get_loader_for_file]: the loader class applied to the
    path, or [inr ext] for [ValueError(f"Unsupported file type: {ext}")]. *)
Definition get_loader_for_file (file_path : pystr) : (loader * pystr) + pystr :=
  let ext := py_lower uni_lower (splitext_ext file_path) in
  match dict_get ext SUPPORTED_LOADERS with
  | None => inr ext
  | Some l => inl (l, file_path)
  end.

End Loader.

(** [os.path.join(a, b)] (posixpath). *)
Definition py_path_join (a b : pystr) : pystr :=
  if negb (is_nil b) && (hd 0 b =? 47) then b
  else if is_nil a || (List.last a 0 =? 47) then a ++ b else a ++ [47] ++ b.

Definition CHROMA_BASE_DIR : pystr := s2p "kb_storage".

(** kb_api.py:95 [get_collection_path]. *)
Definition get_collection_path (collection_name : pystr) : pystr :=
  py_path_join CHROMA_BASE_DIR collection_name.

(** The characters of [tempfile._RandomNameSequence]. *)
Definition RANDOM_NAME_CHARS : pystr := s2p "abcdefghijklmnopqrstuvwxyz0123456789_".

(** The path [tempfile.NamedTemporaryFile(delete=False, suffix=suffix)]
    creates: [os.path.join(dir, "tmp" + name + suffix)] with [dir] the
    temporary directory and [name] eight characters of
    [RANDOM_NAME_CHARS]. *)
Definition temp_file_name (dir name suffix : pystr) : pystr :=
  py_path_join dir (s2p "tmp" ++ name ++ suffix).


(** The source a chunk is counted under by [get_collection_stats]. *)
Definition chunk_source (c : chunk) : pystr := default (s2p "unknown") (ch_source_file c).

(** The number of chunks of [cs] counted under [src]. *)
Definition count_source (src : pystr) (cs : list chunk) : nat :=
  length (List.filter (fun c => bool_decide (chunk_source c = src)) cs).

(** A chunk as the splitter returns it: non-empty, at most [chunk_size]
    characters, no surrounding whitespace. *)
Definition good_chunk (c : list Z) : Prop :=
  0 < len c <= TextSplitter.chunk_size /\ strip c = c.

(* ------------------------------------------------------------------ *)
(** ** tools/calculator/main.py: [calculate_endpoint] *)

Module CalculatorEndpoint.
Import Calculator.

(** Exceptions the endpoint catches besides those of [safe_eval]. *)
Inductive endpoint_exn :=
  | SyntaxError
  (** [float()] of a complex, [ast.parse] of a non-string *)
  | TypeError
  (** [float()] of an int too large for a float *)
  | FloatOverflowError
  | EvalError (e : calc_exn).

(** What [float(result)] gives: a finite float (its exact value), an
    infinity or a NaN, or an exception. *)
Inductive float_result :=
  | FFinite (q : Q)
  | FNonFinite
  | FRaise (e : endpoint_exn).

(** JSON values of [req.input]. *)
#[warnings="-register-all"]
Inductive json :=
  | JNull
  | JBool (b : bool)
  | JInt (z : Z)
  | JFloat (q : Q)
  | JStr (s : pystr)
  | JList (l : list json)
  | JObj (o : list (pystr * json)).

(** [bool(v)] *)
Definition py_truthy (v : json) : bool :=
  match v with
  | JNull => false
  | JBool b => b
  | JInt z => negb (z =? 0)
  | JFloat q => negb (Qeq_bool q 0)
  | JStr s => negb (is_nil s)
  | JList l => negb (is_nil l)
  | JObj o => negb (is_nil o)
  end.

Inductive calc_response :=
  | CalcSuccess (expression : pystr) (value : Q)
  | NoExpression
  | CalcError (e : endpoint_exn)
  (** the reply cannot be sent: starlette's [JSONResponse] renders with
      [json.dumps(..., allow_nan=False)], which raises for an infinite or
      NaN value, and the server answers 500 *)
  | ServerError.

Section Endpoint.

(** Python's numbers and the functions of [operator] on them. *)
Variable A : arith.

(** [float(x)] *)
Variable py_float : num A -> float_result.

(** [ast.parse(expr_str, mode='eval').body]; [None]: it raises. *)
Variable parse : pystr -> option expr.

(** main.py:47 [calculate_endpoint] on [req.input] (a dict given by its
    items). *)
Definition calculate_endpoint (input : list (pystr * json)) : calc_response :=
  let expression := default (JStr []) (dict_get (s2p "expression") input) in
  if negb (py_truthy expression) then NoExpression
  else
    match expression with
    | JStr s =>
        match parse s with
        | None => CalcError SyntaxError
        | Some tree =>
            match safe_eval A tree with
            | CErr e => CalcError (EvalError e)
            | COk v =>
                match py_float v with
                | FFinite q => CalcSuccess s q
                | FNonFinite => ServerError
                | FRaise e => CalcError e
                end
            end
        end
    | _ => CalcError TypeError
    end.

End Endpoint.

End CalculatorEndpoint.

(** [float(x)] on the numbers of [qcomplex], for trees with no imaginary
    literal: a number with no imaginary part is a real number. *)
Definition demo_py_float (v : Q * Q) : CalculatorEndpoint.float_result :=
  if Qeq_bool (snd v) 0 then CalculatorEndpoint.FFinite (fst v)
  else CalculatorEndpoint.FRaise CalculatorEndpoint.TypeError.

(* ================================================================== *)
(** * Properties *)


Example split_text_ex1 :
  TextSplitter.split_text (s2p "ab cd") = [s2p "ab cd"].
Proof. reflexivity. Qed.



(* ------------------------------------------------------------------ *)
(** ** Facts about the chunker *)

Module TextSplitterFacts.
Import TextSplitter.

Lemma is_prefix_app p s : is_prefix p s = true -> s = p ++ skipn (length p) s.
Proof.
  revert s. induction p as [|x p IH]; intros s H; simpl; [done|].
  destruct s as [|y s]; [discriminate|].
  simpl in H. apply andb_prop in H as [Hxy H].
  apply Z.eqb_eq in Hxy. subst y. f_equal. by apply IH.
Qed.

Lemma break_at_app sep t b a : break_at sep t = Some (b, a) -> t = b ++ sep ++ a.
Proof.
  revert b a. induction t as [|c t IH]; intros b a H; simpl in H.
  - destruct (is_prefix sep []) eqn:E; [|discriminate].
    injection H as <- <-. simpl. by apply is_prefix_app in E.
  - destruct (is_prefix sep (c :: t)) eqn:E.
    + injection H as <- <-. simpl. by apply is_prefix_app in E.
    + destruct (break_at sep t) as [[b' a']|] eqn:E'; [|discriminate].
      injection H as <- <-. simpl. f_equal. by apply IH.
Qed.

Lemma split_on_cons fuel sep t : exists y ys, split_on fuel sep t = y :: ys.
Proof.
  destruct fuel as [|f]; simpl; [by eauto|].
  destruct (break_at sep t) as [[b a]|]; eauto.
Qed.

Lemma split_on_join fuel sep t : join_with sep (split_on fuel sep t) = t.
Proof.
  revert t. induction fuel as [|f IH]; intros t; simpl; [by rewrite app_nil_r|].
  destruct (break_at sep t) as [[b a]|] eqn:E; simpl; [|by rewrite app_nil_r].
  apply break_at_app in E. subst t. f_equal.
  destruct (split_on_cons f sep a) as (y & ys & Hy).
  specialize (IH a). rewrite Hy in IH |- *. simpl in IH |- *.
  rewrite <- IH. by rewrite app_assoc.
Qed.

Lemma concat_filter_nonempty (l : list (list Z)) :
  concat (List.filter (fun s => negb (is_nil s)) l) = concat l.
Proof.
  induction l as [|x l IH]; simpl; [done|].
  destruct x; simpl; by rewrite IH.
Qed.

Lemma concat_split_text_with_regex text sep :
  concat (split_text_with_regex text sep) = text.
Proof.
  unfold split_text_with_regex. rewrite concat_filter_nonempty.
  destruct sep as [|z sep].
  - induction text as [|c text IH]; simpl; [done|]. by rewrite IH.
  - pose proof (split_on_join (S (length text)) (z :: sep) text) as J.
    destruct (split_on (S (length text)) (z :: sep) text) as [|p0 ps]; [done|].
    simpl in J |- *. exact J.
Qed.

Lemma join_with_nil_sep (l : list (list Z)) : join_with [] l = concat l.
Proof.
  destruct l as [|d ds]; simpl; [done|]. f_equal.
  induction ds as [|x ds IH]; simpl; [done|]. by rewrite IH.
Qed.

Lemma len_app (a b : list Z) : len (a ++ b) = len a + len b.
Proof. unfold len. rewrite length_app. lia. Qed.

Lemma len_nonneg (a : list Z) : 0 <= len a.
Proof. unfold len. lia. Qed.

Lemma merge_loop_small ds docs cur total :
  total = len (concat cur) ->
  len (concat cur) + len (concat ds) <= chunk_size ->
  merge_loop [] ds docs cur total = docs ++ option_list (join_docs (cur ++ ds) []).
Proof.
  revert docs cur total. induction ds as [|d ds IH]; intros docs cur total Ht Hle.
  - simpl. by rewrite app_nil_r.
  - simpl. simpl in Hle. rewrite len_app in Hle.
    pose proof (len_nonneg (concat ds)) as Hn.
    assert (Hc : (total + len d + (if is_nil cur then 0 else len []) >? chunk_size) = false).
    { rewrite Z.gtb_ltb. apply Z.ltb_ge. destruct (is_nil cur); change (len []) with 0; lia. }
    rewrite Hc.
    rewrite IH.
    + by rewrite <- app_assoc.
    + rewrite concat_app, len_app. simpl. rewrite app_nil_r.
      destruct (1 <? _); change (len []) with 0; lia.
    + rewrite concat_app, len_app. simpl. rewrite app_nil_r. lia.
Qed.

Lemma merge_splits_small l :
  len (concat l) <= chunk_size ->
  merge_splits l [] = option_list (join_docs l []).
Proof.
  intros H. unfold merge_splits. rewrite merge_loop_small; [done| done |].
  simpl. change (len []) with 0. lia.
Qed.

Lemma split_loop_small recur ss final good :
  Forall (fun s => len s < chunk_size) ss ->
  split_loop recur ss final good
  = final ++ (if is_nil (good ++ ss) then [] else merge_splits (good ++ ss) []).
Proof.
  revert final good. induction ss as [|s ss IH]; intros final good Hall; simpl.
  - by rewrite app_nil_r.
  - inversion Hall as [|? ? Hs Hss]; subst.
    apply Z.ltb_lt in Hs. rewrite Hs. rewrite IH by done.
    rewrite <- app_assoc. simpl.
    destruct (good ++ s :: ss) eqn:E; [by destruct good|done].
Qed.

Lemma in_concat_len (x : list Z) l : In x l -> len x <= len (concat l).
Proof.
  induction l as [|y l IH]; simpl; [done|].
  intros [<-|Hin]; rewrite len_app; pose proof (len_nonneg y);
    pose proof (len_nonneg (concat l)); [lia|]. specialize (IH Hin). lia.
Qed.

Lemma split_regex_short text sep recur :
  len text < chunk_size ->
  split_loop recur (split_text_with_regex text sep) [] [] = short_chunks text.
Proof.
  intros H. pose proof (concat_split_text_with_regex text sep) as Hc.
  rewrite split_loop_small.
  - simpl. destruct (split_text_with_regex text sep) as [|s ss] eqn:E.
    + simpl in Hc. subst text. reflexivity.
    + simpl. rewrite merge_splits_small by (rewrite Hc; lia).
      unfold join_docs, short_chunks. rewrite join_with_nil_sep, Hc.
      by destruct (is_nil (strip text)).
  - apply List.Forall_forall. intros x Hx. apply (in_concat_len x) in Hx.
    rewrite Hc in Hx. lia.
Qed.

Lemma split_text_rec_short seps text :
  seps <> [] -> len text < chunk_size -> split_text_rec seps text = short_chunks text.
Proof.
  intros Hne H. induction seps as [|s rest IH]; [done|]. simpl.
  destruct (is_nil s); [by apply split_regex_short|].
  destruct (is_some (break_at s text)); [by apply split_regex_short|].
  destruct rest as [|s' rest']; simpl; [by apply split_regex_short|].
  apply IH. discriminate.
Qed.

End TextSplitterFacts.

(** ** Scores of query results *)

Lemma score_of_bounds (d : Q) : (0 <= d)%Q -> (0 <= score_of d <= 1)%Q.
Proof.
  intros H. unfold score_of, py_max.
  destruct (Qlt_le_dec 0 (1 - d / 3)) as [Hlt|Hle].
  - assert (0 <= d / 3)%Q by (apply Qle_shift_div_l; lra). split; lra.
  - split; [apply Qle_refl|lra].
Qed.

Lemma score_of_antitone (d1 d2 : Q) : (d1 < d2)%Q -> (score_of d2 <= score_of d1)%Q.
Proof.
  intros H. unfold score_of, py_max.
  assert (d1 / 3 < d2 / 3)%Q.
  { unfold Qdiv. apply Qmult_lt_r; [reflexivity|exact H]. }
  destruct (Qlt_le_dec 0 (1 - d1 / 3)); destruct (Qlt_le_dec 0 (1 - d2 / 3)); lra.
Qed.

(** ** Collection names *)

Lemma forallb_remove_char (f : Z -> bool) (ch : Z) (l : list Z) :
  forallb f (py_remove_char ch l) = forallb (fun c => (c =? ch) || f c) l.
Proof.
  unfold py_remove_char. induction l as [|c l IH]; simpl; [done|].
  destruct (c =? ch); simpl; rewrite IH; done.
Qed.

Lemma remove_char_nil (ch : Z) (l : list Z) :
  is_nil (py_remove_char ch l) = forallb (fun c => c =? ch) l.
Proof.
  unfold py_remove_char. induction l as [|c l IH]; simpl; [done|].
  destruct (c =? ch); simpl; done.
Qed.

Lemma collection_name_ok_iff (isal : Z -> bool) (name : list Z) :
  collection_name_ok isal name = true <->
  existsb (fun c => negb ((c =? 95) || (c =? 45))) name = true /\
  forallb (fun c => (c =? 95) || ((c =? 45) || isalnum_char isal c)) name = true.
Proof.
  unfold collection_name_ok, py_isalnum.
  rewrite andb_true_iff, forallb_remove_char, forallb_remove_char.
  assert (Hn : forall l : list Z,
            negb (is_nil (py_remove_char 45 (py_remove_char 95 l)))
            = existsb (fun c => negb ((c =? 95) || (c =? 45))) l).
  { unfold py_remove_char.
    induction l as [|c l IH]; simpl; [done|].
    destruct (c =? 95) eqn:E1; simpl; [exact IH|].
    destruct (c =? 45) eqn:E2; simpl; [exact IH|done]. }
  by rewrite Hn.
Qed.

Lemma name_char_ascii (isal : Z -> bool) (c : Z) :
  c < 128 -> (c =? 95) || ((c =? 45) || isalnum_char isal c) = in_name_charset c.
Proof.
  intros H. unfold isalnum_char, in_name_charset.
  replace (c <? 128) with true by (symmetry; apply Z.ltb_lt; lia).
  destruct (c =? 95), (c =? 45), (is_ascii_alnum c); reflexivity.
Qed.




(** C1: every query result carries the raw distance the store returned
    and the score [max(0, 1 - distance/3)]; a larger distance never has a
    larger score; and since the store's squared-L2 distances are not
    negative, every score lies in [0, 1]. *)
Theorem query_scores_bounded (knn : list chunk -> pystr -> Z -> list (chunk * Q))
    (opens : pystr -> bool)
    (Hdist : forall cs q k c d, In (c, d) (knn cs q k) -> (0 <= d)%Q)
    (request : query_request) (fs : fsmap) (resp : query_response)
    (Hq : query_collection knn opens request fs = Ret resp) :
  (forall r, In r (qs_documents resp) ->
     rd_score r = py_max 0 (1 - rd_distance r / 3) /\ (0 <= rd_score r <= 1)%Q /\
     exists d, fs !! qr_collection request = Some (NDir d) /\
       In (rd_metadata r, rd_distance r)
          (knn (cd_chunks d) (qr_query request) (qr_top_k request))) /\
  (forall r1 r2, In r1 (qs_documents resp) -> In r2 (qs_documents resp) ->
     (rd_distance r1 < rd_distance r2)%Q -> (rd_score r2 <= rd_score r1)%Q).
Proof.
  unfold query_collection in Hq.
  destruct (fs !! qr_collection request) as [[d|]|] eqn:E; try discriminate.
  destruct (opens (qr_collection request)); simpl in Hq; [|discriminate].
  injection Hq as <-. simpl. split.
  - intros r Hr. apply in_map_iff in Hr as ([c dist] & <- & Hin). simpl.
    split; [done|]. split.
    + apply score_of_bounds. eapply Hdist. exact Hin.
    + exists d. by split.
  - intros r1 r2 H1 H2 Hlt.
    apply in_map_iff in H1 as ([c1 d1] & <- & _).
    apply in_map_iff in H2 as ([c2 d2] & <- & _).
    simpl in *. by apply score_of_antitone.
Qed.


(** ** Uploads *)

Lemma upload_unfold (isal : Z -> bool) (low : Z -> list Z) (opens : pystr -> bool)
    filename collection env st :
  is_supported (py_lower low (splitext_ext filename)) = true ->
  collection_name_ok isal collection = true ->
  ue_tmp_ok env = true -> ue_copy_ok env = true ->
  upload_document isal low opens filename collection env st =
  (let '(r, fs', acc) := upload_body opens filename collection env (st_fs st) in
   (match r with Ret a => Ret a | Raise e => Raise (HTTPException 500 (DProcessing e)) end,
    {| st_fs := fs';
       st_scratch := List.filter (fun p => negb (bool_decide (p = ue_tmp_name env)))
                       (ue_tmp_name env :: st_scratch st) |},
    [TmpCreate (ue_tmp_name env); TmpWrite (ue_tmp_name env)] ++ acc
      ++ [PathExists (ue_tmp_name env); Unlink (ue_tmp_name env)])).
Proof.
  intros H1 H2 H3 H4. unfold upload_document. cbv zeta.
  rewrite H1, H2, H3, H4. reflexivity.
Qed.

(** C3: an upload whose pages give no chunk is answered with HTTP 500:
    the 400 "No text could be extracted" raised in the [try] block is
    caught by [except Exception] and re-raised as a server error; the
    collections are unchanged. *)
Theorem upload_no_text_server_error (isal : Z -> bool) (low : Z -> list Z)
    (opens : pystr -> bool) filename collection env st pages
    (Hext : is_supported (py_lower low (splitext_ext filename)) = true)
    (Hname : collection_name_ok isal collection = true)
    (Htmp : ue_tmp_ok env = true) (Hcopy : ue_copy_ok env = true)
    (Hpages : ue_pages env = Some pages)
    (Hnone : TextSplitter.split_documents pages = []) :
  exists scratch acc,
    upload_document isal low opens filename collection env st
    = (Raise (HTTPException 500 (DProcessing (HTTPException 400 DNoText))),
       {| st_fs := st_fs st; st_scratch := scratch |}, acc) /\
    is_user_error (HTTPException 500 (DProcessing (HTTPException 400 DNoText))) = false.
Proof.
  rewrite upload_unfold by done. unfold upload_body. rewrite Hpages, Hnone.
  simpl. by eexists _, _.
Qed.

(** ** Appends and stats *)

Lemma create_or_append_dir opens name cs fs d :
  opens name = true -> fs !! name = Some (NDir d) ->
  snd (create_or_append opens name cs fs) !! name
  = Some (NDir {| cd_files := cd_files d; cd_chunks := cd_chunks d ++ cs |}).
Proof.
  intros Ho H. unfold create_or_append. rewrite H, Ho. simpl. apply lookup_insert_eq.
Qed.

Lemma create_or_append_fresh opens name cs fs :
  opens name = true -> fs !! name = None ->
  snd (create_or_append opens name cs fs) !! name
  = Some (NDir {| cd_files := [CHROMA_DB_FILE]; cd_chunks := cs |}).
Proof.
  intros Ho H. unfold create_or_append. rewrite H, Ho. simpl. apply lookup_insert_eq.
Qed.

Lemma create_or_append_all_dir opens name batches fs d :
  opens name = true -> fs !! name = Some (NDir d) ->
  exists d', create_or_append_all opens name batches fs !! name = Some (NDir d') /\
             cd_chunks d' = cd_chunks d ++ concat batches.
Proof.
  intros Ho. revert fs d. induction batches as [|b bs IH]; intros fs d H; simpl.
  - exists d. by rewrite app_nil_r.
  - destruct (IH _ _ (create_or_append_dir opens name b fs d Ho H)) as (d' & H1 & H2).
    exists d'. split; [done|]. rewrite H2. simpl. by rewrite app_assoc.
Qed.

Lemma create_or_append_refused_dir opens name cs fs d :
  opens name = false -> fs !! name = Some (NDir d) ->
  create_or_append opens name cs fs = (Raise StorageError, fs).
Proof. intros Ho H. unfold create_or_append. by rewrite H, Ho. Qed.

Lemma create_or_append_all_refused_dir opens name batches fs d :
  opens name = false -> fs !! name = Some (NDir d) ->
  create_or_append_all opens name batches fs = fs.
Proof.
  intros Ho H. induction batches as [|b bs IH]; simpl; [done|].
  by rewrite (create_or_append_refused_dir opens name b fs d Ho H).
Qed.

(** C4: for a name whose store Chroma opens, after one or more
    [createOrAppend] calls on a name that had no collection, [stats]
    reports the sum of the batch sizes; every call on an existing
    collection keeps the stored chunks and adds the whole batch (no
    dedup, no overwrite); and every successful upload adds exactly
    [chunks_added] chunks to its collection.  For a name Chroma refuses
    (kb_api's own check accepts some, such as "ab"), the first call
    fails yet leaves an empty store directory, [stats] afterwards fails
    with 500 instead of reporting the chunks, and no upload to it
    succeeds. *)
Theorem stats_total_after_appends (opens : pystr -> bool) (name : pystr)
    (batches : list (list chunk)) (fs : fsmap)
    (Hfresh : fs !! name = None) (Hne : batches <> []) :
  (opens name = true ->
     exists r, get_collection_stats opens name (create_or_append_all opens name batches fs) = Ret r /\
               sr_total_chunks r = Z.of_nat (list_sum (map (@length chunk) batches))) /\
  (forall fs0 d cs, opens name = true -> fs0 !! name = Some (NDir d) ->
     exists d', snd (create_or_append opens name cs fs0) !! name = Some (NDir d') /\
                cd_chunks d' = cd_chunks d ++ cs /\
                length (cd_chunks d') = (length (cd_chunks d) + length cs)%nat) /\
  (forall isal low filename env st r st' acc,
     upload_document isal low opens filename name env st = (Ret r, st', acc) ->
     Z.of_nat (chunk_total name (st_fs st')) = Z.of_nat (chunk_total name (st_fs st)) + ur_chunks_added r) /\
  (opens name = false ->
     (forall cs, create_or_append opens name cs fs
                 = (Raise StorageError,
                    <[name := NDir {| cd_files := [CHROMA_DB_FILE]; cd_chunks := [] |}]> fs)) /\
     get_collection_stats opens name (create_or_append_all opens name batches fs)
     = Raise (HTTPException 500 (DStats StorageError)) /\
     (forall isal low filename env st r st' acc,
        upload_document isal low opens filename name env st <> (Ret r, st', acc))).
Proof.
  split; [|split; [|split]].
  - intros Ho. destruct batches as [|b bs]; [done|]. simpl.
    destruct (create_or_append_all_dir opens name bs _ _ Ho
                (create_or_append_fresh opens name b fs Ho Hfresh)) as (d' & H1 & H2).
    unfold get_collection_stats. rewrite H1, Ho. eexists. split; [done|]. simpl.
    rewrite H2, length_app, length_concat. simpl. lia.
  - intros fs0 d cs Ho H. eexists. split; [by apply create_or_append_dir|].
    split; [done|]. simpl. apply length_app.
  - intros isal low filename env st r st' acc H.
    unfold upload_document in H. cbv zeta in H.
    destruct (is_supported _); simpl in H; [|discriminate].
    destruct (collection_name_ok isal name); simpl in H; [|discriminate].
    destruct (ue_tmp_ok env); simpl in H; [|discriminate].
    destruct (ue_copy_ok env); simpl in H; [|discriminate].
    unfold upload_body in H.
    destruct (ue_pages env) as [pages|]; [|discriminate].
    destruct (is_nil (TextSplitter.split_documents pages)); [discriminate|].
    destruct (ue_store_ok env); simpl in H; [|discriminate].
    unfold create_or_append in H. unfold chunk_total.
    destruct (st_fs st !! name) as [[d|]|] eqn:E; simpl in H; try discriminate;
      destruct (opens name); simpl in H; try discriminate;
      injection H as <- <- _; simpl; rewrite lookup_insert_eq; simpl.
    + rewrite length_app, length_map. lia.
    + rewrite length_map. lia.
  - intros Ho.
    assert (Hfirst : forall cs, create_or_append opens name cs fs
                 = (Raise StorageError,
                    <[name := NDir {| cd_files := [CHROMA_DB_FILE]; cd_chunks := [] |}]> fs))
      by (intros cs; unfold create_or_append; by rewrite Hfresh, Ho).
    split; [exact Hfirst|split].
    + destruct batches as [|b bs]; [done|]. simpl. rewrite Hfirst. simpl.
      rewrite (create_or_append_all_refused_dir opens name bs _
                 {| cd_files := [CHROMA_DB_FILE]; cd_chunks := [] |} Ho)
        by apply lookup_insert_eq.
      unfold get_collection_stats. rewrite lookup_insert_eq, Ho. reflexivity.
    + intros isal low filename env st r st' acc H.
      unfold upload_document in H. cbv zeta in H.
      destruct (is_supported _); simpl in H; [|discriminate].
      destruct (collection_name_ok isal name); simpl in H; [|discriminate].
      destruct (ue_tmp_ok env); simpl in H; [|discriminate].
      destruct (ue_copy_ok env); simpl in H; [|discriminate].
      unfold upload_body in H.
      destruct (ue_pages env) as [pages|]; [|discriminate].
      destruct (is_nil (TextSplitter.split_documents pages)); [discriminate|].
      destruct (ue_store_ok env); simpl in H; [|discriminate].
      unfold create_or_append in H. rewrite Ho in H.
      destruct (st_fs st !! name) as [[d|]|]; simpl in H; discriminate.
Qed.

(** ** Queries on missing and empty collections *)



(** C5: a query against [kb_storage/notes] when that path is a regular
    file: it is no collection in the spec's sense ([exists] asks for a
    directory, and [list_collections] skips it), yet the query does not
    fail with "not found" (404); it passes the [os.path.exists] check and
    fails with a server error (500) when the store is opened. *)
Theorem query_regular_file_not_not_found :
  collection_exists (s2p "notes") notes_file_fs = false /\
  list_collections demo_chroma_opens notes_file_fs = [] /\
  query_collection demo_knn demo_chroma_opens
    {| qr_query := s2p "hello"; qr_collection := s2p "notes"; qr_top_k := 5 |}
    notes_file_fs
  = Raise (HTTPException 500 (DQuerying StorageError)).
Proof. split; [|split]; reflexivity. Qed.

(** ** The chunker round trip *)

(** C6 (counterexample): the text " a" is chunked to the single chunk
    "a" (chunks are whitespace-stripped), so the reassembly is "a". *)
Lemma split_text_roundtrip_fails :
  TextSplitter.split_text (s2p " a") = [s2p "a"] /\
  TextSplitter.reassemble (TextSplitter.split_text (s2p " a")) <> s2p " a".
Proof. split; [reflexivity|discriminate]. Qed.

(** C6 (as amended): a text shorter than the chunk size (1000) gives the
    text with leading and trailing whitespace removed as its only chunk,
    or no chunk when nothing else is left; reassembly yields the stripped
    text, which is the text itself exactly when it has no leading or
    trailing whitespace. *)
Theorem split_text_short_roundtrip (text : list Z)
    (Hlen : len text < TextSplitter.chunk_size) :
  TextSplitter.split_text text = (if is_nil (strip text) then [] else [strip text]) /\
  TextSplitter.reassemble (TextSplitter.split_text text) = strip text.
Proof.
  assert (H : TextSplitter.split_text text = short_chunks text).
  { apply TextSplitterFacts.split_text_rec_short; [discriminate|exact Hlen]. }
  rewrite H. unfold short_chunks. split; [done|].
  destruct (strip text) eqn:E; simpl; [done|]. by rewrite app_nil_r.
Qed.

(** ** Unsupported extensions *)

(** C7 (counterexample): "notes.TXT" has the extension ".TXT", which is
    not one of ".pdf", ".txt", ".md", ".docx"; the extension is lowercased
    before the check, so the upload is accepted and indexed. *)
Lemma upload_uppercase_extension_accepted :
  splitext_ext (s2p "notes.TXT") = s2p ".TXT" /\
  is_supported (s2p ".TXT") = false /\
  fst (fst (upload_document latin1_isalnum latin1_lower demo_chroma_opens (s2p "notes.TXT") (s2p "docs")
              demo_env demo_state))
  = Ret {| ur_status := s2p "success"; ur_collection := s2p "docs";
           ur_chunks_added := 1; ur_filename := s2p "notes.TXT" |}.
Proof. split; [|split]; reflexivity. Qed.

Lemma upload_supported_not_unsupported (isal : Z -> bool) (low : Z -> list Z)
    (opens : pystr -> bool) filename collection env st x :
  is_supported (py_lower low (splitext_ext filename)) = true ->
  fst (fst (upload_document isal low opens filename collection env st))
  <> Raise (HTTPException 400 (DUnsupportedType x)).
Proof.
  intros H. unfold upload_document. cbv zeta. rewrite H. simpl.
  destruct (collection_name_ok isal collection); simpl; [|discriminate].
  destruct (ue_tmp_ok env); simpl; [|discriminate].
  destruct (ue_copy_ok env); simpl; [|discriminate].
  destruct (upload_body _ _ _ _ _) as [[r fs'] acc]. simpl.
  destruct r; discriminate.
Qed.

Lemma is_supported_In (e : pystr) : In e SUPPORTED_EXTENSIONS -> is_supported e = true.
Proof.
  intros H. unfold is_supported. apply existsb_exists. exists e. split; [done|].
  by apply bool_decide_eq_true.
Qed.

(** C7 (as amended): an upload fails with HTTP 400 for an unsupported
    file type exactly when its lowercased [os.path.splitext] extension is
    not one of ".pdf", ".txt", ".md", ".docx"; it then fails before any
    file or store access, leaving the state as it was; an extension whose
    lowercase form is one of the four, such as ".TXT", passes the
    check. *)
Theorem upload_rejects_unsupported_extension (isal : Z -> bool) (low : Z -> list Z)
    (opens : pystr -> bool) filename collection env st :
  ((exists x, fst (fst (upload_document isal low opens filename collection env st))
              = Raise (HTTPException 400 (DUnsupportedType x)))
   <-> is_supported (py_lower low (splitext_ext filename)) = false) /\
  (is_supported (py_lower low (splitext_ext filename)) = false ->
   upload_document isal low opens filename collection env st
   = (Raise (HTTPException 400 (DUnsupportedType (py_lower low (splitext_ext filename)))),
      st, [])) /\
  (forall e, In e SUPPORTED_EXTENSIONS -> py_lower low (splitext_ext filename) = e ->
   forall x, fst (fst (upload_document isal low opens filename collection env st))
             <> Raise (HTTPException 400 (DUnsupportedType x))).
Proof.
  assert (Hrej : is_supported (py_lower low (splitext_ext filename)) = false ->
   upload_document isal low opens filename collection env st
   = (Raise (HTTPException 400 (DUnsupportedType (py_lower low (splitext_ext filename)))),
      st, [])) by (intros Hext; unfold upload_document; cbv zeta; by rewrite Hext).
  split; [|split; [exact Hrej|]].
  - split.
    + intros [x Hx]. destruct (is_supported _) eqn:E; [|done].
      exfalso. by eapply upload_supported_not_unsupported.
    + intros Hext. rewrite (Hrej Hext). by eexists.
  - intros e He Hlow x. apply upload_supported_not_unsupported.
    rewrite Hlow. by apply is_supported_In.
Qed.

(** ** Deleting a collection *)




(** ** Cleanup of the scratch copy *)

(** When the temporary file is created and the upload copied into it,
    the scratch copy is gone when [upload_document] returns, whatever the
    loading, splitting and storing that follow do. *)
Theorem upload_scratch_cleaned (isal : Z -> bool) (low : Z -> list Z) (opens : pystr -> bool)
    filename collection env st
    (Hfresh : ~ In (ue_tmp_name env) (st_scratch st))
    (Htmp : ue_tmp_ok env = true) (Hcopy : ue_copy_ok env = true) :
  ~ In (ue_tmp_name env)
       (st_scratch (snd (fst (upload_document isal low opens filename collection env st)))).
Proof.
  unfold upload_document. cbv zeta. rewrite Htmp, Hcopy. simpl.
  destruct (negb (is_supported _)); [done|].
  destruct (negb (collection_name_ok _ _)); [done|].
  destruct (upload_body _ _ _ _ _) as [[r fs'] acc]. simpl.
  rewrite bool_decide_eq_true_2 by done. simpl.
  rewrite List.filter_In. intros [_ H].
  by rewrite bool_decide_eq_true_2 in H.
Qed.

(** C9: when [shutil.copyfileobj] raises, [temp_path] was never bound:
    the [finally] clause raises UnboundLocalError and the temporary file,
    already created with [delete=False], stays on disk. *)
Theorem upload_copy_failure_leaks_scratch :
  upload_document latin1_isalnum latin1_lower demo_chroma_opens (s2p "notes.txt") (s2p "docs")
    copy_fail_env demo_state
  = (Raise UnboundLocalError,
     {| st_fs := empty; st_scratch := [s2p "/tmp/tmpk3x9.txt"] |},
     [TmpCreate (s2p "/tmp/tmpk3x9.txt"); TmpWrite (s2p "/tmp/tmpk3x9.txt")]).
Proof. reflexivity. Qed.

(** ** What the calculator evaluates *)

Module CalculatorFacts.
Import Calculator.

Ltac bind_cases :=
  repeat match goal with
  | H : context [match eval_node ?A ?e with COk _ => _ | CErr _ => _ end] |- _ =>
      destruct (eval_node A e) eqn:?
  | |- context [match eval_node ?A ?e with COk _ => _ | CErr _ => _ end] =>
      destruct (eval_node A e) eqn:?
  end.

(** Whatever [safe_eval] returns a value for is built from numeric
    literals, the five binary operators of [SAFE_OPS] and unary minus. *)
Lemma safe_ok_arith_only (A : arith) (e : expr) v :
  eval_node A e = COk v -> arith_only e = true.
Proof.
  revert v. induction e; intros v H; simpl in H |- *; try discriminate.
  - destruct value; simpl in H; done.
  - destruct op; simpl in H; try discriminate; bind_cases; try discriminate;
      erewrite IHe1, IHe2; eauto.
  - destruct op; simpl in H; try discriminate; bind_cases; try discriminate; eauto.
Qed.

Lemma safe_arith_only_ok (A : arith) (Htot : ops_total A) (e : expr) :
  arith_only e = true -> exists v, eval_node A e = COk v.
Proof.
  destruct Htot as (Hadd & Hsub & Hmul & Hdiv & Hpow & Hneg).
  induction e; intros Hu; simpl in Hu |- *; try discriminate.
  - destruct value; try discriminate; by eexists.
  - assert (Hu' : arith_only e1 = true /\ arith_only e2 = true).
    { destruct op; try discriminate; by apply andb_prop. }
    destruct Hu' as [H1 H2].
    destruct (IHe1 H1) as [a ->], (IHe2 H2) as [b ->].
    destruct op; try discriminate; simpl; auto.
  - destruct op; try discriminate. destruct (IHe Hu) as [a ->]. simpl. auto.
Qed.

Lemma safe_unsafe_value_error (A : arith) (Htot : ops_total A) (e : expr) :
  arith_only e = false -> exists m, eval_node A e = CErr (ValueError m).
Proof.
  induction e; intros Hu; simpl in Hu |- *; try by eexists.
  - destruct value; try discriminate; by eexists.
  - assert (Hsub : forall f : num A -> num A -> cres (num A),
               arith_only e1 && arith_only e2 = false ->
               exists m, match eval_node A e1 with
                         | COk a => match eval_node A e2 with
                                    | COk b => f a b
                                    | CErr x => CErr x
                                    end
                         | CErr x => CErr x
                         end = CErr (ValueError m)).
    { intros f H. destruct (arith_only e1) eqn:H1.
      - destruct (safe_arith_only_ok A Htot e1 H1) as [a ->].
        destruct (IHe2 H) as [m ->]. by eexists.
      - destruct (IHe1 eq_refl) as [m ->]. by eexists. }
    destruct op; simpl; first [by eexists | exact (Hsub _ Hu)].
  - destruct op; simpl; try by eexists.
    destruct (IHe Hu) as [m ->]. by eexists.
Qed.

Lemma safe_arith_no_value_error (A : arith) (Hnv : ops_no_value_error A) (e : expr) :
  arith_only e = true -> is_value_error (eval_node A e) = false.
Proof.
  destruct Hnv as (Hadd & Hsub & Hmul & Hdiv & Hpow & Hneg).
  induction e; intros Hu; simpl in Hu |- *; try discriminate.
  - destruct value; try discriminate; done.
  - assert (Hu' : arith_only e1 = true /\ arith_only e2 = true).
    { destruct op; try discriminate; by apply andb_prop. }
    destruct Hu' as [H1 H2]. specialize (IHe1 H1). specialize (IHe2 H2).
    destruct op; try discriminate; simpl;
      destruct (eval_node A e1); try done; destruct (eval_node A e2); done.
  - destruct op; try discriminate. specialize (IHe Hu). simpl.
    destruct (eval_node A e); done.
Qed.

End CalculatorFacts.

(** C10 (counterexample): [1/0 + x] contains a name, yet [safe_eval]
    does not raise ValueError for it: the left operand is evaluated first
    and raises ZeroDivisionError. *)
Lemma safe_eval_name_not_value_error :
  Calculator.arith_only div_zero_plus_name = false /\
  forall frac_pow, Calculator.safe_eval (Calculator.qcomplex frac_pow) div_zero_plus_name
  = Calculator.CErr (Calculator.ArithError Calculator.ZeroDivisionError).
Proof. split; [reflexivity|intros frac_pow; reflexivity]. Qed.

(** C10 (as amended): [safe_eval] returns a value only for expressions
    built from numeric literals with [+ - * / **] and unary [-]; any
    other expression raises, and raises ValueError whenever the
    arithmetic itself cannot raise (the error of an operation evaluated
    earlier, left to right, such as ZeroDivisionError, comes first
    otherwise); the accepted expressions never raise ValueError when the
    arithmetic does not. *)
Theorem safe_eval_arith_only (A : Calculator.arith) (e : Calculator.expr) :
  (forall v, Calculator.safe_eval A e = Calculator.COk v -> Calculator.arith_only e = true) /\
  (Calculator.arith_only e = false -> exists x, Calculator.safe_eval A e = Calculator.CErr x) /\
  (ops_total A -> Calculator.arith_only e = false ->
     exists m, Calculator.safe_eval A e = Calculator.CErr (Calculator.ValueError m)) /\
  (ops_no_value_error A -> Calculator.arith_only e = true ->
     is_value_error (Calculator.safe_eval A e) = false).
Proof.
  unfold Calculator.safe_eval. split; [|split; [|split]].
  - apply CalculatorFacts.safe_ok_arith_only.
  - intros Hu. destruct (Calculator.eval_node A e) as [v|x] eqn:E; [|by exists x].
    apply CalculatorFacts.safe_ok_arith_only in E. congruence.
  - intros Htot. by apply CalculatorFacts.safe_unsafe_value_error.
  - intros Hnv. by apply CalculatorFacts.safe_arith_no_value_error.
Qed.

(** ** The collection-name check on two names *)


(** ** Witnesses *)

Lemma demo_knn_nonneg cs q k c d : In (c, d) (demo_knn cs q k) -> (0 <= d)%Q.
Proof.
  unfold demo_knn. intros H. apply in_map_iff in H as (c' & Heq & _).
  injection Heq as _ <-. discriminate.
Qed.

Lemma query_scores_bounded_witness :
  query_collection demo_knn demo_chroma_opens demo_request docs_fs = Ret demo_query_response /\
  (forall r, In r (qs_documents demo_query_response) ->
     rd_score r = py_max 0 (1 - rd_distance r / 3) /\ (0 <= rd_score r <= 1)%Q /\
     exists d, docs_fs !! qr_collection demo_request = Some (NDir d) /\
       In (rd_metadata r, rd_distance r)
          (demo_knn (cd_chunks d) (qr_query demo_request) (qr_top_k demo_request))) /\
  (forall r1 r2, In r1 (qs_documents demo_query_response) ->
     In r2 (qs_documents demo_query_response) ->
     (rd_distance r1 < rd_distance r2)%Q -> (rd_score r2 <= rd_score r1)%Q).
Proof.
  assert (Hq : query_collection demo_knn demo_chroma_opens demo_request docs_fs = Ret demo_query_response)
    by reflexivity.
  split; [exact Hq|].
  exact (query_scores_bounded demo_knn demo_chroma_opens demo_knn_nonneg demo_request docs_fs
           demo_query_response Hq).
Defined.


Lemma upload_no_text_server_error_witness :
  TextSplitter.split_documents [[]] = [] /\
  exists scratch acc,
    upload_document latin1_isalnum latin1_lower demo_chroma_opens (s2p "empty.txt") (s2p "docs")
      empty_txt_env demo_state
    = (Raise (HTTPException 500 (DProcessing (HTTPException 400 DNoText))),
       {| st_fs := st_fs demo_state; st_scratch := scratch |}, acc) /\
    is_user_error (HTTPException 500 (DProcessing (HTTPException 400 DNoText))) = false.
Proof.
  split; [vm_compute; reflexivity|].
  apply (upload_no_text_server_error latin1_isalnum latin1_lower demo_chroma_opens (s2p "empty.txt")
           (s2p "docs") empty_txt_env demo_state [[]]);
    vm_compute; reflexivity.
Defined.

Lemma stats_total_after_appends_witness :
  (exists r, get_collection_stats demo_chroma_opens (s2p "docs")
               (create_or_append_all demo_chroma_opens (s2p "docs")
                  [[demo_chunk]; [demo_chunk; demo_chunk]] (∅ : fsmap))
             = Ret r /\ sr_total_chunks r = 3) /\
  collection_name_ok latin1_isalnum (s2p "ab") = true /\
  demo_chroma_opens (s2p "ab") = false /\
  get_collection_stats demo_chroma_opens (s2p "ab")
    (create_or_append_all demo_chroma_opens (s2p "ab") [[demo_chunk]] (∅ : fsmap))
  = Raise (HTTPException 500 (DStats StorageError)) /\
  upload_document latin1_isalnum latin1_lower demo_chroma_opens (s2p "notes.txt") (s2p "ab")
    demo_env demo_state
  = (Raise (HTTPException 500 (DProcessing StorageError)),
     {| st_fs := <[s2p "ab" := NDir {| cd_files := [CHROMA_DB_FILE]; cd_chunks := [] |}]> ∅;
        st_scratch := [] |},
     [TmpCreate (ue_tmp_name demo_env); TmpWrite (ue_tmp_name demo_env);
      LoadFile (ue_tmp_name demo_env); PathExists (s2p "ab"); StoreCreate (s2p "ab");
      PathExists (ue_tmp_name demo_env); Unlink (ue_tmp_name demo_env)]).
Proof.
  assert (Hfresh : (∅ : fsmap) !! s2p "docs" = None) by reflexivity.
  assert (Hne : [[demo_chunk]; [demo_chunk; demo_chunk]] <> []) by discriminate.
  destruct (stats_total_after_appends demo_chroma_opens (s2p "docs")
              [[demo_chunk]; [demo_chunk; demo_chunk]] ∅ Hfresh Hne) as (Hsum & _).
  assert (Hdocs : demo_chroma_opens (s2p "docs") = true) by (vm_compute; reflexivity).
  destruct (Hsum Hdocs) as (r & H1 & H2).
  split; [exists r; split; [exact H1|rewrite H2; reflexivity]|].
  assert (Hab : demo_chroma_opens (s2p "ab") = false) by (vm_compute; reflexivity).
  assert (Hfresh' : (∅ : fsmap) !! s2p "ab" = None) by reflexivity.
  assert (Hne' : [[demo_chunk]] <> []) by discriminate.
  destruct (stats_total_after_appends demo_chroma_opens (s2p "ab") [[demo_chunk]] ∅
              Hfresh' Hne') as (_ & _ & _ & Hbug).
  destruct (Hbug Hab) as (_ & Hstats & _).
  split; [vm_compute; reflexivity|]. split; [exact Hab|]. split; [exact Hstats|].
  vm_compute. reflexivity.
Defined.

Lemma split_text_short_roundtrip_witness :
  len (s2p "  hello  ") < TextSplitter.chunk_size /\
  TextSplitter.split_text (s2p "  hello  ") = [s2p "hello"] /\
  TextSplitter.reassemble (TextSplitter.split_text (s2p "  hello  ")) = s2p "hello".
Proof.
  assert (Hlen : len (s2p "  hello  ") < TextSplitter.chunk_size) by (vm_compute; reflexivity).
  split; [exact Hlen|].
  exact (split_text_short_roundtrip (s2p "  hello  ") Hlen).
Defined.

Lemma upload_rejects_unsupported_extension_witness :
  is_supported (py_lower latin1_lower (splitext_ext (s2p "report.exe"))) = false /\
  upload_document latin1_isalnum latin1_lower demo_chroma_opens (s2p "report.exe") (s2p "docs")
    demo_env demo_state
  = (Raise (HTTPException 400 (DUnsupportedType (s2p ".exe"))), demo_state, []) /\
  (forall x, fst (fst (upload_document latin1_isalnum latin1_lower demo_chroma_opens
                         (s2p "notes.TXT") (s2p "docs") demo_env demo_state))
             <> Raise (HTTPException 400 (DUnsupportedType x))).
Proof.
  assert (Hexe : is_supported (py_lower latin1_lower (splitext_ext (s2p "report.exe"))) = false)
    by reflexivity.
  split; [exact Hexe|].
  destruct (upload_rejects_unsupported_extension latin1_isalnum latin1_lower demo_chroma_opens
              (s2p "report.exe") (s2p "docs") demo_env demo_state) as (_ & H1 & _).
  split; [exact (H1 Hexe)|].
  destruct (upload_rejects_unsupported_extension latin1_isalnum latin1_lower demo_chroma_opens
              (s2p "notes.TXT") (s2p "docs") demo_env demo_state) as (_ & _ & H3).
  apply (H3 (s2p ".txt")); [right; left; reflexivity|vm_compute; reflexivity].
Defined.


Lemma safe_eval_arith_only_witness :
  Calculator.arith_only div_zero_plus_name = false /\
  exists x, Calculator.safe_eval (Calculator.qcomplex demo_frac_pow) div_zero_plus_name
            = Calculator.CErr x.
Proof.
  assert (Hu : Calculator.arith_only div_zero_plus_name = false) by reflexivity.
  split; [exact Hu|].
  destruct (safe_eval_arith_only (Calculator.qcomplex demo_frac_pow) div_zero_plus_name)
    as (_ & H & _).
  exact (H Hu).
Defined.


(* ================================================================== *)
(** * Further properties *)

(** ** Chunks returned by the splitter *)

Module ChunkFacts.
Import TextSplitter TextSplitterFacts.

Ltac case_ifs :=
  repeat match goal with |- context [if ?b then _ else _] => destruct b end.

Lemma len_nil : len [] = 0.
Proof. reflexivity. Qed.

Lemma lstrip_suffix (l : list Z) : exists l1, l = l1 ++ lstrip l.
Proof.
  induction l as [|c l IH]; simpl; [by exists []|].
  destruct (py_isspace c); [|by exists []].
  destruct IH as [l1 H]. exists (c :: l1). simpl. by f_equal.
Qed.

Lemma lstrip_idem (l : list Z) : lstrip (lstrip l) = lstrip l.
Proof.
  induction l as [|c l IH]; simpl; [done|].
  destruct (py_isspace c) eqn:E; [done|]. simpl. by rewrite E.
Qed.

Lemma length_lstrip (l : list Z) : (length (lstrip l) <= length l)%nat.
Proof. destruct (lstrip_suffix l) as [l1 H]. rewrite H at 2. rewrite length_app. lia. Qed.

(** A prefix of a text without leading whitespace has none either. *)
Lemma lstrip_prefix (p q : list Z) : lstrip (p ++ q) = p ++ q -> lstrip p = p.
Proof.
  destruct p as [|c p]; [done|]. cbn [app lstrip].
  destruct (py_isspace c) eqn:E; [|done].
  intros H. pose proof (length_lstrip (p ++ q)) as Hl. rewrite H in Hl. simpl in Hl. lia.
Qed.

Lemma lstrip_strip (s : list Z) : lstrip (strip s) = strip s.
Proof.
  unfold strip. set (x := lstrip s).
  destruct (lstrip_suffix (rev x)) as [l1 H].
  assert (Hx : x = rev (lstrip (rev x)) ++ rev l1).
  { rewrite <- rev_app_distr, <- H. by rewrite rev_involutive. }
  apply (lstrip_prefix _ (rev l1)). rewrite <- Hx. apply lstrip_idem.
Qed.

Lemma strip_idem (s : list Z) : strip (strip s) = strip s.
Proof.
  unfold strip at 1. rewrite lstrip_strip. unfold strip.
  rewrite rev_involutive, lstrip_idem. done.
Qed.

Lemma len_strip (s : list Z) : len (strip s) <= len s.
Proof.
  unfold strip, len. rewrite length_rev.
  pose proof (length_lstrip s). pose proof (length_lstrip (rev (lstrip s))).
  rewrite length_rev in *. lia.
Qed.

Lemma join_docs_good (cur : list (list Z)) :
  len (concat cur) <= chunk_size -> Forall good_chunk (option_list (join_docs cur [])).
Proof.
  intros H. unfold join_docs. rewrite join_with_nil_sep.
  destruct (strip (concat cur)) as [|c t] eqn:E; simpl; [done|].
  constructor; [|done]. rewrite <- E. split; [split|].
  - rewrite E. unfold len. simpl. lia.
  - pose proof (len_strip (concat cur)). lia.
  - apply strip_idem.
Qed.

Lemma merge_shrink_spec (cur : list (list Z)) (total len_ : Z) :
  total = len (concat cur) ->
  let '(cur', total') := merge_shrink 0 cur total len_ in
  total' = len (concat cur') /\
  (cur' = [] \/ (total' <= chunk_overlap /\ (total' + len_ <= chunk_size \/ total' <= 0))).
Proof.
  revert total. induction cur as [|c cs IH]; intros total Ht; simpl.
  - split; [done|by left].
  - destruct ((total >? chunk_overlap) || ((total + len_ + 0 >? chunk_size) && (total >? 0))) eqn:E.
    + apply IH. rewrite Ht. simpl. rewrite len_app. case_ifs; simpl in *; rewrite ?len_nil in *; lia.
    + split; [done|right].
      apply orb_false_iff in E as [E1 E2].
      rewrite Z.gtb_ltb in E1. apply Z.ltb_ge in E1. split; [done|].
      apply andb_false_iff in E2 as [E2|E2]; rewrite Z.gtb_ltb in E2;
        apply Z.ltb_ge in E2; lia.
Qed.

Lemma merge_loop_good ds docs cur total :
  total = len (concat cur) -> total <= chunk_size ->
  Forall (fun d => len d < chunk_size) ds -> Forall good_chunk docs ->
  Forall good_chunk (merge_loop [] ds docs cur total).
Proof.
  revert docs cur total. induction ds as [|d ds IH]; intros docs cur total Ht Hle Hds Hdocs.
  - simpl. apply Forall_app. split; [done|]. apply join_docs_good. lia.
  - inversion Hds as [|? ? Hd Hds']; subst. simpl.
    change (len []) with 0.
    pose proof (len_nonneg (concat cur)) as Hc0.
    pose proof (len_nonneg d) as Hd0.
    assert (E0 : (if is_nil cur then 0 else 0) = 0) by (by destruct (is_nil cur)).
    rewrite E0.
    destruct (len (concat cur) + len d + 0 >? chunk_size) eqn:Ec.
    + destruct (is_nil cur) eqn:En.
      * destruct cur; [|discriminate]. simpl.
        apply IH; [| |done|done]; simpl; rewrite ?app_nil_r; case_ifs; simpl in *; rewrite ?len_nil in *; lia.
      * pose proof (merge_shrink_spec cur (len (concat cur)) (len d) eq_refl) as Hs.
        destruct (merge_shrink 0 cur (len (concat cur)) (len d)) as [cur2 total2].
        destruct Hs as [Ht2 Hs].
        apply IH; [| |done|].
        -- rewrite concat_app, len_app. simpl. rewrite app_nil_r, Ht2. case_ifs; simpl in *; rewrite ?len_nil in *; lia.
        -- pose proof (len_nonneg (concat cur2)).
           destruct Hs as [->|(_ & [Hs|Hs])]; simpl in *; case_ifs; simpl in *; rewrite ?len_nil in *; lia.
        -- apply Forall_app. split; [done|]. apply join_docs_good. lia.
    + rewrite Z.gtb_ltb in Ec. apply Z.ltb_ge in Ec.
      apply IH; [| |done|done].
      * rewrite concat_app, len_app. simpl. rewrite app_nil_r. case_ifs; simpl in *; rewrite ?len_nil in *; lia.
      * case_ifs; simpl in *; rewrite ?len_nil in *; lia.
Qed.

Lemma merge_splits_good (good : list (list Z)) :
  Forall (fun d => len d < chunk_size) good -> Forall good_chunk (merge_splits good []).
Proof. intros H. unfold merge_splits. apply merge_loop_good; done. Qed.

Lemma split_loop_good recur ss final good :
  Forall good_chunk final -> Forall (fun d => len d < chunk_size) good ->
  (forall s, In s ss -> chunk_size <= len s ->
     exists f, recur = Some f /\ Forall good_chunk (f s)) ->
  Forall good_chunk (split_loop recur ss final good).
Proof.
  revert final good. induction ss as [|s ss IH]; intros final good Hf Hg Hr; simpl.
  - apply Forall_app. split; [done|]. destruct (is_nil good); [done|].
    by apply merge_splits_good.
  - destruct (len s <? chunk_size) eqn:E.
    + apply IH; [done| |].
      * apply Forall_app. split; [done|]. constructor; [|done]. by apply Z.ltb_lt.
      * intros s' Hs'. apply Hr. by right.
    + apply IH; [| done |].
      * apply Z.ltb_ge in E. destruct (Hr s (or_introl eq_refl) E) as (f & -> & Hfs).
        apply Forall_app. split; [|done].
        apply Forall_app. split; [done|]. destruct (is_nil good); [done|].
        by apply merge_splits_good.
      * intros s' Hs'. apply Hr. by right.
Qed.

Lemma split_chars_len (text : list Z) x :
  In x (split_text_with_regex text []) -> len x = 1.
Proof.
  unfold split_text_with_regex. intros H. apply filter_In in H as [H _].
  apply in_map_iff in H as (c & <- & _). done.
Qed.

Lemma split_text_rec_good (seps : list (list Z)) (text : list Z) :
  List.last seps [0] = [] -> Forall good_chunk (split_text_rec seps text).
Proof.
  revert text. induction seps as [|s rest IH]; intros text Hl; [discriminate|].
  assert (Hrest : rest = [] -> s = []) by (intros ->; exact Hl).
  assert (Hl' : rest <> [] -> List.last rest [0] = []).
  { intros Hne. destruct rest; [done|exact Hl]. }
  simpl. destruct (is_nil s) eqn:Es.
  - destruct s; [|discriminate].
    apply split_loop_good; [done|done|].
    intros x Hx Hge. apply split_chars_len in Hx. unfold chunk_size in Hge. lia.
  - assert (Hr : rest <> []) by (intros H; specialize (Hrest H); subst s; discriminate).
    destruct (is_some (break_at s text)).
    + apply split_loop_good; [done|done|].
      intros x _ _. destruct rest as [|s' rest']; [done|]. simpl.
      eexists. split; [done|]. apply IH. by apply Hl'.
    + destruct rest as [|s' rest']; [done|]. apply IH. by apply Hl'.
Qed.

Lemma split_text_good (text : list Z) : Forall good_chunk (split_text text).
Proof. by apply split_text_rec_good. Qed.

End ChunkFacts.

(** Every chunk [split_text] returns is non-empty, at most 1000
    characters long, and has no leading or trailing whitespace. *)
Theorem split_text_chunks_good (text : list Z) :
  Forall good_chunk (TextSplitter.split_text text).
Proof. apply ChunkFacts.split_text_good. Qed.

(** ** Loaders, collection paths, listing and stats *)

Lemma rfind_aux_app c l1 l2 i acc :
  rfind_aux c (l1 ++ l2) i acc = rfind_aux c l2 (i + len l1) (rfind_aux c l1 i acc).
Proof.
  revert i acc. induction l1 as [|x l1 IH]; intros i acc; simpl.
  - by rewrite Z.add_0_r.
  - rewrite IH. f_equal. unfold len. simpl. lia.
Qed.

Lemma rfind_aux_notin c l i acc : ~ In c l -> rfind_aux c l i acc = acc.
Proof.
  revert i acc. induction l as [|x l IH]; intros i acc H; simpl; [done|].
  destruct (x =? c) eqn:E; [apply Z.eqb_eq in E; subst; destruct H; by left|].
  apply IH. intros Hin. apply H. by right.
Qed.

Lemma rfind_aux_range c l i acc :
  rfind_aux c l i acc = acc \/ (i <= rfind_aux c l i acc < i + len l).
Proof.
  revert i acc. induction l as [|x l IH]; intros i acc; simpl; [by left|].
  unfold len in *. simpl.
  destruct (IH (i + 1) (if x =? c then i else acc)) as [H|H].
  - rewrite H. destruct (x =? c); [right; lia|by left].
  - right. lia.
Qed.

Lemma splitext_temp_name (pre name : pystr) (sfx : pystr) :
  ~ In 46 name -> ~ In 47 name -> ~ In 46 sfx -> ~ In 47 sfx ->
  splitext_ext (pre ++ s2p "tmp" ++ name ++ 46 :: sfx) = 46 :: sfx.
Proof.
  intros Hn1 Hn2 Hs1 Hs2. unfold splitext_ext, rfind.
  set (P := pre ++ s2p "tmp" ++ name ++ 46 :: sfx).
  assert (Hsep : rfind_aux 47 P 0 (-1) = rfind_aux 47 pre 0 (-1)).
  { unfold P. rewrite rfind_aux_app. apply rfind_aux_notin.
    simpl. intros [H|[H|[H|H]]]; try discriminate.
    apply in_app_or in H as [H|[H|H]]; [done|discriminate|done]. }
  assert (Hdot : rfind_aux 46 P 0 (-1) = len pre + 3 + len name).
  { unfold P. rewrite (app_assoc (s2p "tmp")), app_assoc.
    rewrite rfind_aux_app. cbn [rfind_aux].
    rewrite rfind_aux_notin by exact Hs1. rewrite Z.eqb_refl.
    unfold len. rewrite !length_app. simpl. lia. }
  rewrite Hsep, Hdot.
  pose proof (rfind_aux_range 47 pre 0 (-1)) as Hr.
  set (sp := rfind_aux 47 pre 0 (-1)) in *.
  assert (Hlt : sp < len pre + 3 + len name)
    by (pose proof (TextSplitterFacts.len_nonneg name); destruct Hr as [-> | Hr]; unfold len in *; lia).
  apply Z.ltb_lt in Hlt. rewrite Hlt.
  assert (Hsp : (Z.to_nat (sp + 1) <= length pre)%nat)
    by (destruct Hr as [-> | Hr]; unfold len in *; lia).
  assert (Hex : existsb (fun c => negb (c =? 46))
     (firstn (Z.to_nat (len pre + 3 + len name - (sp + 1))) (skipn (Z.to_nat (sp + 1)) P)) = true).
  { apply existsb_exists. exists 116. split; [|done].
    unfold P. rewrite skipn_app, firstn_app.
    apply in_or_app. right.
    rewrite length_skipn.
    replace (Z.to_nat (sp + 1) - length pre)%nat with O by lia. simpl.
    destruct (Z.to_nat (len pre + 3 + len name - (sp + 1)) - (length pre - Z.to_nat (sp + 1)))%nat
      eqn:E; [unfold len in E; lia|]. by left. }
  rewrite Hex.
  unfold P. replace (Z.to_nat (len pre + 3 + len name)) with (length (pre ++ s2p "tmp" ++ name))
    by (unfold len; rewrite !length_app; simpl; lia).
  replace (pre ++ s2p "tmp" ++ name ++ 46 :: sfx)
    with ((pre ++ s2p "tmp" ++ name) ++ 46 :: sfx) by (by rewrite <- !app_assoc).
  apply drop_app_length.
Qed.

Lemma random_char_ok c : In c RANDOM_NAME_CHARS -> c <> 46 /\ c <> 47.
Proof.
  unfold RANDOM_NAME_CHARS. simpl. intros H.
  repeat (destruct H as [<-|H]; [split; discriminate|]). done.
Qed.

Lemma supported_cases (ext : pystr) :
  is_supported ext = true ->
  ext = s2p ".pdf" \/ ext = s2p ".txt" \/ ext = s2p ".md" \/ ext = s2p ".docx".
Proof.
  unfold is_supported, SUPPORTED_EXTENSIONS. simpl.
  repeat case_bool_decide; subst; auto; discriminate.
Qed.

Lemma py_path_join_rel (a b : pystr) :
  hd 0 b <> 47 -> exists pre, py_path_join a b = pre ++ b.
Proof.
  intros H. unfold py_path_join.
  replace (hd 0 b =? 47) with false by (symmetry; by apply Z.eqb_neq).
  rewrite andb_false_r. simpl.
  destruct (is_nil a || _); [by exists a|]. exists (a ++ [47]). by rewrite <- app_assoc.
Qed.

(** The scratch copy of an upload whose extension is supported is named
    [tmp] + eight characters of [RANDOM_NAME_CHARS] + that extension in
    the temporary directory; [get_loader_for_file] on that path never
    raises and picks the loader registered for the uploaded file's
    extension, applied to the scratch path. *)
Theorem temp_file_loader (low : Z -> list Z) (filename dir name : pystr)
    (Hext : is_supported (py_lower low (splitext_ext filename)) = true)
    (Hname : Forall (fun c => In c RANDOM_NAME_CHARS) name) :
  exists l, dict_get (py_lower low (splitext_ext filename)) SUPPORTED_LOADERS = Some l /\
    get_loader_for_file low (temp_file_name dir name (py_lower low (splitext_ext filename)))
    = inl (l, temp_file_name dir name (py_lower low (splitext_ext filename))).
Proof.
  set (ext := py_lower low (splitext_ext filename)) in *.
  assert (Hn : ~ In 46 name /\ ~ In 47 name).
  { rewrite List.Forall_forall in Hname.
    split; intros Hin; apply Hname in Hin; apply random_char_ok in Hin; tauto. }
  destruct Hn as [Hn1 Hn2].
  unfold get_loader_for_file, temp_file_name.
  destruct (py_path_join_rel dir (s2p "tmp" ++ name ++ ext)) as [pre ->]; [done|].
  assert (Hsfx : forall sfx, ext = 46 :: sfx -> ~ In 46 sfx -> ~ In 47 sfx ->
            splitext_ext (pre ++ s2p "tmp" ++ name ++ ext) = ext).
  { intros sfx -> H1 H2. by apply splitext_temp_name. }
  destruct (supported_cases ext Hext) as [E|[E|[E|E]]];
    (rewrite (Hsfx (tl ext)); [rewrite E; eexists; split; reflexivity
     | rewrite E; reflexivity
     | rewrite E; intros H; vm_compute in H; repeat (destruct H as [H|H]; [discriminate H|]); exact H
     | rewrite E; intros H; vm_compute in H; repeat (destruct H as [H|H]; [discriminate H|]); exact H]).
Qed.

Lemma name_ok_no_char (isal : Z -> bool) (name : pystr) (c : Z) :
  collection_name_ok isal name = true -> c < 128 -> in_name_charset c = false -> ~ In c name.
Proof.
  intros Hok Hc Hnc Hin. apply collection_name_ok_iff in Hok as [_ Hall].
  rewrite forallb_forall in Hall. specialize (Hall c Hin).
  rewrite name_char_ascii in Hall by done. congruence.
Qed.

(** [get_collection_path] puts a name that does not start with '/' under
    [kb_storage/]; a name starting with '/' is returned as it is
    (os.path.join drops the base); a name accepted by the upload check
    stays under [kb_storage/], and has no '/' and no '.' in it. *)
Theorem collection_path_shape (isal : Z -> bool) (name : pystr) :
  (hd 0 name <> 47 -> get_collection_path name = s2p "kb_storage/" ++ name) /\
  (forall rest, name = 47 :: rest -> get_collection_path name = name) /\
  (collection_name_ok isal name = true ->
     get_collection_path name = s2p "kb_storage/" ++ name /\
     ~ In 47 name /\ ~ In 46 name).
Proof.
  assert (Hrel : hd 0 name <> 47 -> get_collection_path name = s2p "kb_storage/" ++ name).
  { intros H. unfold get_collection_path, py_path_join.
    replace (hd 0 name =? 47) with false by (symmetry; by apply Z.eqb_neq).
    rewrite andb_false_r. reflexivity. }
  split; [exact Hrel|split].
  - intros rest ->. reflexivity.
  - intros Hok.
    assert (H47 : ~ In 47 name) by (apply (name_ok_no_char isal); [done|lia|reflexivity]).
    assert (H46 : ~ In 46 name) by (apply (name_ok_no_char isal); [done|lia|reflexivity]).
    split; [|done]. apply Hrel. destruct name as [|x r]; simpl; [lia|].
    intros ->. apply H47. by left.
Qed.

Lemma collection_info_key (opens : pystr -> bool) (e : pystr * node) (k : pystr) (n : Z) :
  collection_info opens e = Some (k, n) -> fst e = k.
Proof.
  destruct e as [k' [d|]]; simpl; [|discriminate].
  destruct (opens k'); [|discriminate]. by injection 1 as -> _.
Qed.

Lemma list_collections_In (opens : pystr -> bool) (fs : fsmap) (k : pystr) (n : Z) :
  In (k, n) (list_collections opens fs) <->
  exists d, fs !! k = Some (NDir d) /\ opens k = true /\ n = Z.of_nat (length (cd_chunks d)).
Proof.
  unfold list_collections. rewrite <- list_elem_of_In, list_elem_of_omap. split.
  - intros ([k' nd] & Hin & Hf). apply elem_of_map_to_list in Hin.
    destruct nd as [d|]; simpl in Hf; [|discriminate].
    destruct (opens k') eqn:Ho; [|discriminate]. injection Hf as <- <-. by exists d.
  - intros (d & Hk & Ho & ->). exists (k, NDir d). split; [|simpl; by rewrite Ho].
    by apply elem_of_map_to_list.
Qed.

Lemma omap_keys_NoDup (opens : pystr -> bool) (l : list (pystr * node)) :
  NoDup (map fst l) -> NoDup (map fst (omap (collection_info opens) l)).
Proof.
  induction l as [|[k nd] l IH]; intros H; cbn [omap list_omap map]; [constructor|].
  apply NoDup_cons in H as [Hk H].
  destruct (collection_info opens (k, nd)) as [[k' n]|] eqn:Ei; cbn [map fst]; [|by apply IH].
  apply collection_info_key in Ei. simpl in Ei. subst k'.
  constructor; [|by apply IH].
  intros Hin. apply Hk. apply list_elem_of_In in Hin. apply list_elem_of_In.
  apply in_map_iff in Hin as ([k2 n2] & Hk2 & Hin). simpl in Hk2. subst k2.
  apply list_elem_of_In in Hin. apply list_elem_of_omap in Hin as (e & Hin2 & Hf).
  apply collection_info_key in Hf.
  apply in_map_iff. exists e. split; [done|]. by apply list_elem_of_In.
Qed.

(** [list_collections] lists exactly the directories under the storage
    root whose store opens, each once, with the number of chunks its
    store holds; regular files and directories whose store raises are
    skipped. *)
Theorem list_collections_exact (opens : pystr -> bool) (fs : fsmap) :
  (forall k n, In (k, n) (list_collections opens fs) <->
     exists d, fs !! k = Some (NDir d) /\ opens k = true /\
               n = Z.of_nat (length (cd_chunks d))) /\
  NoDup (map fst (list_collections opens fs)).
Proof.
  split; [apply list_collections_In|].
  unfold list_collections. apply omap_keys_NoDup. apply NoDup_fst_map_to_list.
Qed.

Lemma dict_get_tally (acc : list (pystr * Z)) (src s : pystr) :
  dict_get s (tally acc src)
  = if bool_decide (src = s)
    then Some (match dict_get s acc with Some v => v + 1 | None => 1 end)
    else dict_get s acc.
Proof.
  induction acc as [|[k v] r IH]; simpl.
  - by case_bool_decide.
  - destruct (decide (k = src)) as [->|Hk].
    + rewrite bool_decide_eq_true_2 by done. simpl.
      destruct (decide (src = s)) as [->|Hs].
      * by rewrite !bool_decide_eq_true_2.
      * by rewrite !bool_decide_eq_false_2.
    + rewrite (bool_decide_eq_false_2 (k = src)) by done. simpl.
      destruct (decide (k = s)) as [->|Hks].
      * rewrite bool_decide_eq_true_2 by done.
        by rewrite bool_decide_eq_false_2 by (intros ->; done).
      * rewrite (bool_decide_eq_false_2 (k = s)) by done. exact IH.
Qed.

Lemma tally_keys (acc : list (pystr * Z)) (src x : pystr) :
  In x (map fst (tally acc src)) -> In x (map fst acc) \/ x = src.
Proof.
  induction acc as [|[k v] r IH]; simpl.
  - intros [<-|[]]. by right.
  - case_bool_decide; simpl; intros [<-|Hx]; auto.
    destruct (IH Hx); auto.
Qed.

Lemma tally_NoDup (acc : list (pystr * Z)) (src : pystr) :
  NoDup (map fst acc) -> NoDup (map fst (tally acc src)).
Proof.
  induction acc as [|[k v] r IH]; simpl; intros H.
  - constructor; [by intros ?%list_elem_of_In|constructor].
  - apply NoDup_cons in H as [Hk H]. case_bool_decide as Hks; simpl.
    + by constructor.
    + constructor; [|by apply IH].
      intros Hin%list_elem_of_In. apply tally_keys in Hin as [Hin|<-]; [|done].
      apply Hk. by apply list_elem_of_In.
Qed.

Lemma tally_sum (acc : list (pystr * Z)) (src : pystr) :
  fold_right Z.add 0 (map snd (tally acc src)) = fold_right Z.add 0 (map snd acc) + 1.
Proof.
  induction acc as [|[k v] r IH]; simpl; [done|].
  case_bool_decide; simpl; [lia|]. rewrite IH. lia.
Qed.

Lemma dict_get_In (h : list (pystr * Z)) (s : pystr) :
  is_some (dict_get s h) = true <-> In s (map fst h).
Proof.
  induction h as [|[k v] r IH]; simpl; [done|].
  case_bool_decide; simpl; [split; auto|]. rewrite IH. intuition congruence.
Qed.

Lemma histogram_fold (cs : list chunk) (acc : list (pystr * Z)) (s : pystr) :
  dict_get s (fold_left (fun acc c => tally acc (default (s2p "unknown") (ch_source_file c))) cs acc)
  = match dict_get s acc with
    | Some v => Some (v + Z.of_nat (count_source s cs))
    | None => if (count_source s cs =? 0)%nat then None else Some (Z.of_nat (count_source s cs))
    end.
Proof.
  revert acc. induction cs as [|c cs IH]; intros acc; cbn [fold_left].
  - destruct (dict_get s acc); [by rewrite Z.add_0_r|done].
  - rewrite IH, dict_get_tally. fold (chunk_source c).
    assert (Hc : count_source s (c :: cs)
                 = ((if bool_decide (chunk_source c = s) then 1 else 0) + count_source s cs)%nat).
    { unfold count_source. cbn [List.filter]. by case_bool_decide. }
    rewrite Hc. destruct (decide (chunk_source c = s)) as [E|E].
    + rewrite !bool_decide_eq_true_2 by done.
      destruct (dict_get s acc); cbn [Nat.eqb Nat.add]; f_equal; lia.
    + by rewrite !bool_decide_eq_false_2 by done.
Qed.

Lemma histogram_fold_NoDup (cs : list chunk) (acc : list (pystr * Z)) :
  NoDup (map fst acc) ->
  NoDup (map fst (fold_left (fun acc c => tally acc (default (s2p "unknown") (ch_source_file c))) cs acc)).
Proof.
  revert acc. induction cs as [|c cs IH]; intros acc H; cbn [fold_left]; [done|].
  apply IH. by apply tally_NoDup.
Qed.

Lemma histogram_fold_sum (cs : list chunk) (acc : list (pystr * Z)) :
  fold_right Z.add 0 (map snd (fold_left (fun acc c => tally acc (default (s2p "unknown") (ch_source_file c))) cs acc))
  = fold_right Z.add 0 (map snd acc) + Z.of_nat (length cs).
Proof.
  revert acc. induction cs as [|c cs IH]; intros acc; cbn [fold_left length]; [lia|].
  rewrite IH, tally_sum. lia.
Qed.

Lemma count_source_pos (s : pystr) (cs : list chunk) :
  (count_source s cs =? 0)%nat = false <-> exists c, In c cs /\ chunk_source c = s.
Proof.
  unfold count_source. rewrite Nat.eqb_neq. split.
  - intros H. destruct (List.filter _ cs) as [|c l] eqn:E; [done|].
    assert (Hc : In c (List.filter (fun c => bool_decide (chunk_source c = s)) cs))
      by (rewrite E; by left).
    apply filter_In in Hc as [Hc Hs]. apply bool_decide_eq_true in Hs. by exists c.
  - intros (c & Hc & Hs) Hl. apply length_zero_iff_nil in Hl.
    assert (Hin : In c (List.filter (fun c => bool_decide (chunk_source c = s)) cs))
      by (apply filter_In; split; [done|by apply bool_decide_eq_true]).
    by rewrite Hl in Hin.
Qed.

(** On an existing collection directory, [get_collection_stats] fails
    with a 500 when the Chroma store there does not open; otherwise it
    reports the number of stored chunks, and a histogram whose entries are
    exactly the distinct sources of the chunks (a chunk without
    [source_file] counted under 'unknown'), each with its number of
    chunks, each source once; the counts add up to the total and
    [file_count] is the number of entries. *)
Theorem stats_source_files (opens : pystr -> bool) (name : pystr) (fs : fsmap) (d : coll_dir)
    (Hd : fs !! name = Some (NDir d)) :
  (opens name = false ->
     get_collection_stats opens name fs = Raise (HTTPException 500 (DStats StorageError))) /\
  (opens name = true ->
  exists r, get_collection_stats opens name fs = Ret r /\
    sr_total_chunks r = Z.of_nat (length (cd_chunks d)) /\
    (forall s, dict_get s (sr_source_files r)
               = if (count_source s (cd_chunks d) =? 0)%nat then None
                 else Some (Z.of_nat (count_source s (cd_chunks d)))) /\
    (forall s, In s (map fst (sr_source_files r)) <->
               exists c, In c (cd_chunks d) /\ chunk_source c = s) /\
    NoDup (map fst (sr_source_files r)) /\
    fold_right Z.add 0 (map snd (sr_source_files r)) = sr_total_chunks r /\
    sr_file_count r = Z.of_nat (length (sr_source_files r))).
Proof.
  unfold get_collection_stats. rewrite Hd. split; intros Ho; rewrite Ho; [done|].
  eexists. split; [done|]. cbn.
  assert (Hget : forall s, dict_get s (source_histogram (cd_chunks d))
               = if (count_source s (cd_chunks d) =? 0)%nat then None
                 else Some (Z.of_nat (count_source s (cd_chunks d))))
    by (intros s; unfold source_histogram; rewrite histogram_fold; done).
  split; [done|]. split; [exact Hget|]. split; [|split; [|split; [|done]]].
  - intros s. rewrite <- dict_get_In, Hget, <- count_source_pos.
    destruct (_ =? _)%nat; simpl; split; congruence.
  - apply histogram_fold_NoDup. constructor.
  - unfold source_histogram. rewrite histogram_fold_sum. simpl. lia.
Qed.

(** ** Uploads and deletes *)


(** When the store write itself does not fail, a failed upload (bad
    extension or name, scratch file or copy failure, loader failure, no
    text, a regular file at the collection path, a store Chroma refuses
    to open) leaves every entry of the storage root as it was, except
    that a new collection name whose store Chroma refuses is left behind
    as a directory holding only an empty store. *)
Theorem upload_failure_keeps_collections (isal : Z -> bool) (low : Z -> list Z)
    (opens : pystr -> bool) filename collection env st e st' acc
    (Hstore : ue_store_ok env = true)
    (H : upload_document isal low opens filename collection env st = (Raise e, st', acc)) :
  st_fs st' = st_fs st \/
  (st_fs st !! collection = None /\ opens collection = false /\
   st_fs st' = <[collection := NDir {| cd_files := [CHROMA_DB_FILE]; cd_chunks := [] |}]>
                 (st_fs st)).
Proof.
  unfold upload_document in H. cbv zeta in H.
  destruct (is_supported _); simpl in H; [|left; by injection H as _ <-].
  destruct (collection_name_ok isal collection); simpl in H; [|left; by injection H as _ <-].
  destruct (ue_tmp_ok env); simpl in H; [|left; by injection H as _ <-].
  destruct (ue_copy_ok env); simpl in H; [|left; by injection H as _ <-].
  unfold upload_body in H.
  destruct (ue_pages env) as [pages|]; [|left; by injection H as _ <-].
  cbv zeta in H.
  destruct (is_nil _); [left; by injection H as _ <-|].
  rewrite Hstore in H. simpl in H. unfold create_or_append in H.
  destruct (st_fs st !! collection) as [[d|]|] eqn:E; simpl in H.
  - destruct (opens collection); simpl in H; [discriminate|]. left. by injection H as _ <-.
  - left. by injection H as _ <-.
  - destruct (opens collection) eqn:Eo; simpl in H; [discriminate|].
    right. injection H as _ <-. done.
Qed.

(** After a successful delete, the name is gone from the storage root and
    from [list_collections], every other entry is unchanged, and querying,
    asking stats for or deleting that name again fails with 404. *)
Theorem delete_success_effect (opens : pystr -> bool) (name : pystr) (o : rm_outcome)
    (fs fs' : fsmap) r
    (H : delete_collection name o fs = (Ret r, fs')) :
  fs' !! name = None /\
  (forall k, k <> name -> fs' !! k = fs !! k) /\
  (forall knn request, qr_collection request = name ->
     query_collection knn opens request fs' = Raise (HTTPException 404 (DNotFound name))) /\
  get_collection_stats opens name fs' = Raise (HTTPException 404 (DNotFound name)) /\
  (forall o', delete_collection name o' fs' = (Raise (HTTPException 404 (DNotFound name)), fs')) /\
  ~ In name (map fst (list_collections opens fs')).
Proof.
  unfold delete_collection in H.
  destruct (is_dot_name name) eqn:Edot; [discriminate|].
  destruct (fs !! name) as [[d|]|] eqn:E; [|discriminate|discriminate].
  destruct (rmtree (cd_files d) o); [discriminate|].
  injection H as _ <-.
  assert (Hn : delete name fs !! name = None) by apply lookup_delete_eq.
  split; [done|]. split; [intros k Hk; by apply lookup_delete_ne|].
  split; [intros knn request <-; unfold query_collection; by rewrite Hn|].
  split; [unfold get_collection_stats; by rewrite Hn|].
  split; [intros o'; unfold delete_collection; by rewrite Edot, Hn|].
  intros Hin. apply in_map_iff in Hin as ([k c] & Hk & Hin). simpl in Hk. subst k.
  apply list_collections_In in Hin as (d' & Hd' & _). congruence.
Qed.

(** ** The calculator endpoint *)

Module CalculatorEndpointFacts.
Import Calculator CalculatorEndpoint.

(** [calculate_endpoint] answers "No expression provided" exactly when
    [input] has no "expression" or a falsy one (null, false, 0, 0.0, '',
    [], {}), whatever the numbers, [float] and the parser do; a truthy
    expression that is not a string (a number, list or object) is
    reported as a TypeError. *)
Theorem endpoint_no_expression (A : arith) (py_float : num A -> float_result)
    (parse : pystr -> option expr) (input : list (pystr * json)) :
  (calculate_endpoint A py_float parse input = NoExpression <->
   dict_get (s2p "expression") input = None \/
   exists v, dict_get (s2p "expression") input = Some v /\ py_truthy v = false) /\
  (forall v, dict_get (s2p "expression") input = Some v -> py_truthy v = true ->
     (forall s, v <> JStr s) -> calculate_endpoint A py_float parse input = CalcError TypeError).
Proof.
  unfold calculate_endpoint. split.
  - destruct (dict_get (s2p "expression") input) as [v|]; cbn [default id]; split.
    + intros H. right. exists v. split; [done|]. cbv zeta in H.
      destruct (py_truthy v) eqn:Et; [|done]. simpl in H.
      destruct v as [| | | |str| |]; try discriminate.
      destruct (parse str) as [tree|]; [|discriminate].
      destruct (safe_eval A tree) as [x|]; [|discriminate].
      by destruct (py_float x).
    + intros [H|(w & Hw & Ht)]; [discriminate|]. injection Hw as <-. by rewrite Ht.
    + intros _. by left.
    + intros _. reflexivity.
  - intros v Hv Ht Hs. rewrite Hv. cbn [default id]. rewrite Ht. simpl.
    destruct v; try done. exfalso. by eapply Hs.
Qed.

End CalculatorEndpointFacts.

(** ** Witnesses of the further properties *)


Lemma temp_file_loader_witness :
  is_supported (py_lower latin1_lower (splitext_ext (s2p "notes.txt"))) = true /\
  Forall (fun c => In c RANDOM_NAME_CHARS) (s2p "k3x9ab_1") /\
  exists l, dict_get (py_lower latin1_lower (splitext_ext (s2p "notes.txt"))) SUPPORTED_LOADERS
            = Some l /\
    get_loader_for_file latin1_lower
      (temp_file_name (s2p "/tmp") (s2p "k3x9ab_1") (py_lower latin1_lower (splitext_ext (s2p "notes.txt"))))
    = inl (l, temp_file_name (s2p "/tmp") (s2p "k3x9ab_1")
                (py_lower latin1_lower (splitext_ext (s2p "notes.txt")))).
Proof.
  assert (Hext : is_supported (py_lower latin1_lower (splitext_ext (s2p "notes.txt"))) = true)
    by reflexivity.
  assert (Hname : Forall (fun c => In c RANDOM_NAME_CHARS) (s2p "k3x9ab_1"))
    by (vm_compute; repeat (constructor; [tauto|]); constructor).
  split; [exact Hext|split; [exact Hname|]].
  exact (temp_file_loader latin1_lower (s2p "notes.txt") (s2p "/tmp") (s2p "k3x9ab_1") Hext Hname).
Defined.

Lemma collection_path_shape_witness :
  get_collection_path (s2p "docs") = s2p "kb_storage/" ++ s2p "docs" /\
  get_collection_path (s2p "/etc") = s2p "/etc" /\
  collection_name_ok latin1_isalnum (s2p "my-docs") = true /\
  ~ In 47 (s2p "my-docs") /\ ~ In 46 (s2p "my-docs").
Proof.
  destruct (collection_path_shape latin1_isalnum (s2p "docs")) as (H1 & _ & _).
  destruct (collection_path_shape latin1_isalnum (s2p "/etc")) as (_ & H2 & _).
  destruct (collection_path_shape latin1_isalnum (s2p "my-docs")) as (_ & _ & H3).
  assert (Hok : collection_name_ok latin1_isalnum (s2p "my-docs") = true) by reflexivity.
  split; [apply H1; vm_compute; discriminate|].
  split; [exact (H2 (s2p "etc") eq_refl)|].
  split; [exact Hok|]. apply H3. exact Hok.
Defined.

Lemma stats_source_files_witness :
  docs_fs !! s2p "docs" = Some (NDir docs_dir) /\
  demo_chroma_opens (s2p "docs") = true /\
  exists r, get_collection_stats demo_chroma_opens (s2p "docs") docs_fs = Ret r /\
    sr_total_chunks r = 1 /\ dict_get (s2p "a.txt") (sr_source_files r) = Some 1 /\
    dict_get (s2p "b.txt") (sr_source_files r) = None.
Proof.
  assert (Hd : docs_fs !! s2p "docs" = Some (NDir docs_dir)) by reflexivity.
  assert (Ho : demo_chroma_opens (s2p "docs") = true) by (vm_compute; reflexivity).
  split; [exact Hd|]. split; [exact Ho|].
  destruct (stats_source_files demo_chroma_opens (s2p "docs") docs_fs docs_dir Hd) as (_ & Hok).
  destruct (Hok Ho) as (r & Hr & Ht & Hget & _ & _ & _ & _).
  exists r. split; [exact Hr|]. split; [rewrite Ht; reflexivity|].
  split; rewrite Hget; vm_compute; reflexivity.
Defined.


Lemma upload_failure_keeps_collections_witness :
  ue_store_ok demo_env = true /\
  (exists e st' acc,
    upload_document latin1_isalnum latin1_lower demo_chroma_opens (s2p "notes.txt") (s2p "notes") demo_env
      {| st_fs := notes_file_fs; st_scratch := [] |} = (Raise e, st', acc) /\
    st_fs st' = notes_file_fs) /\
  (exists e st' acc,
    upload_document latin1_isalnum latin1_lower demo_chroma_opens (s2p "notes.txt") (s2p "ab") demo_env
      demo_state = (Raise e, st', acc) /\
    demo_chroma_opens (s2p "ab") = false /\
    st_fs st' = <[s2p "ab" := NDir {| cd_files := [CHROMA_DB_FILE]; cd_chunks := [] |}]>
                  (st_fs demo_state)).
Proof.
  assert (Hs : ue_store_ok demo_env = true) by reflexivity.
  split; [exact Hs|]. split.
  - assert (H : exists e st' acc,
      upload_document latin1_isalnum latin1_lower demo_chroma_opens (s2p "notes.txt") (s2p "notes")
        demo_env {| st_fs := notes_file_fs; st_scratch := [] |} = (Raise e, st', acc))
      by (eexists _, _, _; reflexivity).
    destruct H as (e & st' & acc & H).
    exists e, st', acc. split; [exact H|].
    destruct (upload_failure_keeps_collections latin1_isalnum latin1_lower demo_chroma_opens
                (s2p "notes.txt") (s2p "notes") demo_env {| st_fs := notes_file_fs; st_scratch := [] |}
                e st' acc Hs H) as [Heq|(Hn & _ & _)]; [exact Heq|].
    vm_compute in Hn. discriminate Hn.
  - assert (H : exists e st' acc,
      upload_document latin1_isalnum latin1_lower demo_chroma_opens (s2p "notes.txt") (s2p "ab")
        demo_env demo_state = (Raise e, st', acc))
      by (eexists _, _, _; reflexivity).
    destruct H as (e & st' & acc & H).
    exists e, st', acc. split; [exact H|].
    destruct (upload_failure_keeps_collections latin1_isalnum latin1_lower demo_chroma_opens
                (s2p "notes.txt") (s2p "ab") demo_env demo_state e st' acc Hs H)
      as [Heq|(_ & Ho & Heq)]; [|split; [exact Ho|exact Heq]].
    exfalso. assert (E := f_equal (fun t => st_fs (snd (fst t))) H). cbn [fst snd] in E.
    rewrite Heq in E. apply (f_equal (lookup (s2p "ab"))) in E.
    vm_compute in E. discriminate E.
Defined.

Lemma delete_success_effect_witness :
  exists r fs', delete_collection (s2p "docs") RmOk docs_fs = (Ret r, fs') /\
    fs' !! s2p "docs" = None /\
    get_collection_stats demo_chroma_opens (s2p "docs") fs' = Raise (HTTPException 404 (DNotFound (s2p "docs"))).
Proof.
  assert (H : exists r fs', delete_collection (s2p "docs") RmOk docs_fs = (Ret r, fs'))
    by (eexists _, _; reflexivity).
  destruct H as (r & fs' & H).
  exists r, fs'. split; [exact H|].
  destruct (delete_success_effect demo_chroma_opens (s2p "docs") RmOk docs_fs fs' r H)
    as (H1 & _ & _ & H2 & _).
  split; [exact H1|exact H2].
Defined.


Lemma upload_scratch_cleaned_witness :
  ~ In (ue_tmp_name demo_env) (st_scratch demo_state) /\
  ue_tmp_ok demo_env = true /\ ue_copy_ok demo_env = true /\
  ~ In (ue_tmp_name demo_env)
       (st_scratch (snd (fst (upload_document latin1_isalnum latin1_lower demo_chroma_opens (s2p "notes.txt")
                                (s2p "docs") demo_env demo_state)))).
Proof.
  assert (Hf : ~ In (ue_tmp_name demo_env) (st_scratch demo_state)) by (vm_compute; tauto).
  assert (Ht : ue_tmp_ok demo_env = true) by reflexivity.
  assert (Hc : ue_copy_ok demo_env = true) by reflexivity.
  split; [exact Hf|split; [exact Ht|split; [exact Hc|]]].
  exact (upload_scratch_cleaned latin1_isalnum latin1_lower demo_chroma_opens (s2p "notes.txt") (s2p "docs")
           demo_env demo_state Hf Ht Hc).
Defined.

Lemma endpoint_no_expression_witness :
  CalculatorEndpoint.calculate_endpoint (Calculator.qcomplex demo_frac_pow) demo_py_float
    (fun _ => None) []
  = CalculatorEndpoint.NoExpression /\
  CalculatorEndpoint.calculate_endpoint (Calculator.qcomplex demo_frac_pow) demo_py_float
    (fun _ => None) [(s2p "expression", CalculatorEndpoint.JInt 5)]
  = CalculatorEndpoint.CalcError CalculatorEndpoint.TypeError.
Proof.
  destruct (CalculatorEndpointFacts.endpoint_no_expression (Calculator.qcomplex demo_frac_pow)
              demo_py_float (fun _ => None) []) as ([_ H1] & _).
  destruct (CalculatorEndpointFacts.endpoint_no_expression (Calculator.qcomplex demo_frac_pow)
              demo_py_float (fun _ => None) [(s2p "expression", CalculatorEndpoint.JInt 5)])
    as (_ & H2).
  split; [apply H1; left; reflexivity|].
  apply (H2 (CalculatorEndpoint.JInt 5)); [reflexivity|reflexivity|].
  intros s Hs. discriminate Hs.
Defined.
